(** * duke: the display loop of DukeMainWindow and the player contract it drives

    Shallow embedding of [src/duke/engine/DukeMainWindow.cpp].  The window's
    members and the locals of [DukeMainWindow::run] become one record that is
    threaded through the body of the loop; the calls the loop makes on its
    collaborators (texture cache, renderers, metronoms) are collected in a
    trace.  [throw] is an explicit result.

    Integers are [Z].  [Time] and the fractional frame position are rational
    numbers kept in lowest terms ([Qc]), so equal rationals are equal values. *)

From Stdlib Require Import ZArith QArith Qcanon Qround String Ascii List Lia.
From stdpp Require Import gmap.
Import ListNotations.

Local Open Scope Z_scope.

(** ** Exceptions *)

(** A call either returns a value or throws [std::runtime_error(what)]. *)
Inductive result (A : Type) : Type :=
| Ok (a : A)
| Throw (what : string).
Arguments Ok {A} a.
Arguments Throw {A} what.

Definition returns {A} (r : result A) : Prop := exists a, r = Ok a.

#[global] Instance result_ret : MRet result := fun _ a => Ok a.
#[global] Instance result_bind : MBind result := fun _ _ f r =>
  match r with
  | Ok a => f a
  | Throw what => Throw what
  end.

(** ** Declarations the translation unit takes from headers *)

(** [enum FitMode]: the header that declares it is not part of the sources, so
    the numeric values of the four enumerators are parameters.  A variable of
    the enumeration type is its underlying integer; the enumerators are
    pairwise different, as the [case] labels of one [switch] must be. *)
Class FitModeDecl := {
  FREE : Z;
  INNER : Z;
  OUTER : Z;
  ACTUAL : Z;
  FitMode_distinct : NoDup [FREE; INNER; OUTER; ACTUAL]
}.

(** The key codes of GLFW the loop switches on. *)
Class GlfwDecl := {
  GLFW_PRESS : Z;
  GLFW_REPEAT : Z;
  GLFW_KEY_HOME : Z;
  GLFW_KEY_END : Z;
  GLFW_KEY_LEFT : Z;
  GLFW_KEY_RIGHT : Z;
  GLFW_keys_distinct : NoDup [GLFW_KEY_HOME; GLFW_KEY_END; GLFW_KEY_LEFT; GLFW_KEY_RIGHT]
}.

(** ** Fit modes *)

Section FitMode.
Context `{FitModeDecl}.

Definition valid_FitMode (mode : Z) : Prop :=
  mode = FREE \/ mode = INNER \/ mode = OUTER \/ mode = ACTUAL.

(** [static bool setNextMode(FitMode &mode)]: the new value of [mode] and
    the returned flag. *)
Definition setNextMode (mode : Z) : result (Z * bool) :=
  if mode =? FREE then Ok (INNER, true)
  else if mode =? INNER then Ok (OUTER, true)
  else if mode =? OUTER then Ok (ACTUAL, false)
  else if mode =? ACTUAL then Ok (INNER, true)
  else Throw "unknown fitmode".

(** [static const char* getFitModeString(FitMode &mode)]. *)
Definition getFitModeString (mode : Z) : result string :=
  if mode =? ACTUAL then Ok "Actual pixel"%string
  else if mode =? INNER then Ok "Fit inner frame"%string
  else if mode =? FREE then Ok "No fit"%string
  else if mode =? OUTER then Ok "Fit outer frame"%string
  else Throw "unknown fitmode".
End FitMode.

(** ** Time and frames *)

(** Modelled from the spec: [Time], whose class is missing from the sources.
    A rational number of seconds, count over scale with scale > 0, kept in
    lowest terms. *)
Definition Time : Type := Qc.

Definition Z2Qc (z : Z) : Qc := Q2Qc (inject_Z z).

(** [Time(count, scale)] with [scale > 0]. *)
Definition mkTime (count scale : Z) : Time := Q2Qc (count # Z.to_pos scale).

(** Modelled from the spec: the frame index is derived by rounding.  The
    [round()] of the rational class is missing from the sources; it is taken
    as the nearest integer, halves upwards. *)
Definition round (x : Qc) : Z := Qfloor (x + Q2Qc (1 # 2)).

(** Conversion of an integer to [size_t] (64 bits). *)
Definition to_size_t (z : Z) : Z := z mod 2 ^ 64.

(** ** Timeline, tracks and clips *)

Definition StreamId : Type := positive.
Definition Overlay : Type := positive.
Definition LoadedTexture : Type := positive.

(** [MediaFrameReference]: the stream (a pointer, possibly null) and the frame
    local to it; the key of the texture cache. *)
Definition MediaFrameReference : Type := option StreamId * Z.

(** Modelled from the spec: [Clip], whose declaration is missing from the
    sources.  A clip covers the half-open frame range [[clipFirst, clipEnd)],
    refers to a media stream, maps a timeline frame to a frame of the stream
    through its local time base, and may carry an overlay. *)
Record Clip := {
  clipFirst : Z;
  clipEnd : Z;
  pStream : option StreamId;
  localFrame : Z -> Z;
  pOverlay : option Overlay
}.

(** Modelled from the spec: [Track], an ordered sequence of clips and a
    disabled flag. *)
Record Track := {
  clips : list Clip;
  disabled : bool
}.

Definition covers (frame : Z) (c : Clip) : bool :=
  (clipFirst c <=? frame) && (frame <? clipEnd c).

(** Modelled from the spec: [Track::clipContaining], missing from the sources.
    A search over the clips for the one whose range holds [frame]; [None] is
    the "not found" sentinel [track.end()]. *)
Definition clipContaining (track : Track) (frame : Z) : option Clip :=
  find (covers frame) (clips track).

(** Modelled from the spec: [Track::getMediaFrameReferenceAt], missing from
    the sources.  The stream of the owning clip and the frame in the clip's
    local time base; a null stream where no clip owns the frame. *)
Definition getMediaFrameReferenceAt (track : Track) (frame : Z) : MediaFrameReference :=
  match clipContaining track frame with
  | Some c => (pStream c, localFrame c frame)
  | None => (None, 0)
  end.

(** A frame lies in a gap of a track when no clip of the track covers it. *)
Definition in_gap (track : Track) (frame : Z) : Prop :=
  forall c, In c (clips track) -> ~ (clipFirst c <= frame < clipEnd c).

Record Range := {
  first : Z;
  last : Z
}.

(** Modelled from the spec: [Timeline], missing from the sources.  The tracks
    in order and the inclusive range [(first, last)] that [getRange] answers;
    how the range is computed from the tracks is not described, so it is
    carried as data. *)
Record Timeline := {
  tracks : list Track;
  getRange : Range
}.

(** ** Player: playback clock and cueing *)

Module Player.

(** Modelled from the spec: the state of [Player], whose implementation is
    missing from the sources.  The accessors keep the names of the getters
    the loop calls. *)
Record t := {
  getTimeline : Timeline;
  getFrameDuration : Time;
  getPlaybackTime : Time;
  getPlaybackSpeed : Z
}.

Definition setPlaybackTime (time : Time) (p : t) : t :=
  {| getTimeline := getTimeline p;
     getFrameDuration := getFrameDuration p;
     getPlaybackTime := time;
     getPlaybackSpeed := getPlaybackSpeed p |}.

(** Modelled from the spec: [setPlaybackSpeed] stores the signed speed as it
    is given, with no clamp, and touches nothing else. *)
Definition setPlaybackSpeed (speed : Z) (p : t) : t :=
  {| getTimeline := getTimeline p;
     getFrameDuration := getFrameDuration p;
     getPlaybackTime := getPlaybackTime p;
     getPlaybackSpeed := speed |}.

(** Modelled from the spec: the current frame is the playback time divided
    by the frame duration; its rounding is the frame index. *)
Definition getCurrentFrame (p : t) : Qc :=
  (getPlaybackTime p / getFrameDuration p)%Qc.

Definition frameToTime (frame : Z) (frameDuration : Time) : Time :=
  (Z2Qc frame * frameDuration)%Qc.

Definition clamp (r : Range) (frame : Z) : Z :=
  Z.max (first r) (Z.min frame (last r)).

(** Modelled from the spec: [load] binds the timeline and the frame duration
    and resets the clock to the start of the timeline. *)
Definition load (timeline : Timeline) (frameDuration : Time) (p : t) : t :=
  {| getTimeline := timeline;
     getFrameDuration := frameDuration;
     getPlaybackTime := frameToTime (first (getRange timeline)) frameDuration;
     getPlaybackSpeed := getPlaybackSpeed p |}.

(** Modelled from the spec: [cue], an absolute seek clamped to the inclusive
    range of the timeline.  It is total: there is no error result. *)
Definition cue (frame : Z) (p : t) : t :=
  setPlaybackTime
    (frameToTime (clamp (getRange (getTimeline p)) frame) (getFrameDuration p)) p.

(** Modelled from the spec: [cueRelative delta] is [cue] at the current
    frame index plus [delta]. *)
Definition cueRelative (delta : Z) (p : t) : t :=
  cue (round (getCurrentFrame p) + delta) p.

(** Modelled from the spec: [offsetPlaybackTime] advances the playback time
    by [elapsed * sign(speed)]. *)
Definition offsetPlaybackTime (elapsed : Time) (p : t) : t :=
  setPlaybackTime (getPlaybackTime p + elapsed * Z2Qc (Z.sgn (getPlaybackSpeed p)))%Qc p.

End Player.

(** ** Texture cache *)

(** Modelled from the spec: the part of [TextureCache] the loop queries, the
    finite map from media frame references to the textures that are resident.
    [getLoadedTexture] is the point query: the handle, or [None] for a miss. *)
Definition getLoadedTexture (resident : gmap MediaFrameReference LoadedTexture)
    (mfr : MediaFrameReference) : option LoadedTexture :=
  resident !! mfr.

(** ** The window and its loop *)

Inductive IterationMode := FORWARD | BACKWARD | PINGPONG.

(** [glm::bvec4] and the channel masks of the anonymous namespace. *)
Definition bvec4 : Type := (bool * bool * bool * bool)%type.
Definition r : bvec4 := (true, false, false, false).
Definition g : bvec4 := (false, true, false, false).
Definition b : bvec4 := (false, false, true, false).
Definition a : bvec4 := (false, false, false, true).
Definition all : bvec4 := (false, false, false, false).

Definition bvec4_eqb (u v : bvec4) : bool :=
  let '(u0, u1, u2, u3) := u in
  let '(v0, v1, v2, v3) := v in
  Bool.eqb u0 v0 && Bool.eqb u1 v1 && Bool.eqb u2 v2 && Bool.eqb u3 v3.

(** What the status overlay is asked to show.  The exposure is a [float] and
    is not part of the model; its message is kept abstract. *)
Inductive Message :=
| Text (msg : string)
| ExposureText.

(** The calls of one iteration on the collaborators of the loop, in order. *)
Inductive Call :=
| PollEvents
| Prepare (frame : Z) (mode : IterationMode)
| Clear
| RenderWithBoundTexture (texture : LoadedTexture)
| DrawText (text : string) (x y : Z) (m n : Z)
| RenderOverlay (overlay : Overlay)
| RenderMetadataOverlay
| RenderStatisticOverlay
| RenderStatusOverlay
| SwapBuffers
| FrameMetronomTick
| SetStatus (liveTime : Time) (msg : Message)
| DumpState
| MetronomCompute.

(** The fields of [m_Context] the loop reads or writes, except the floats
    [zoom] and [exposure] and the viewport and pan, which only the renderers
    consume. *)
Record Context := {
  fitMode : Z;
  channels : bvec4;
  liveTime : Time;
  currentFrame : Qc;
  playbackTime : Time;
  pCurrentImage : option LoadedTexture
}.

(** The members of the window followed by the locals of [run]. *)
Record Window := {
  m_Player : Player.t;
  m_Context : Context;
  m_KeyStrokes : list Z;
  m_CharStrokes : list Z;
  unlimitedFPS : bool;
  showMetadataOverlay : bool;
  showStatisticOverlay : bool;
  doSetupZoom : bool;
  lastFrame : Z;
  milestone : Z;
  running : bool
}.

Definition with_Player (f : Player.t -> Player.t) (w : Window) : Window :=
  {| m_Player := f (m_Player w); m_Context := m_Context w;
     m_KeyStrokes := m_KeyStrokes w; m_CharStrokes := m_CharStrokes w;
     unlimitedFPS := unlimitedFPS w;
     showMetadataOverlay := showMetadataOverlay w;
     showStatisticOverlay := showStatisticOverlay w;
     doSetupZoom := doSetupZoom w; lastFrame := lastFrame w;
     milestone := milestone w; running := running w |}.

Definition with_Context (f : Context -> Context) (w : Window) : Window :=
  {| m_Player := m_Player w; m_Context := f (m_Context w);
     m_KeyStrokes := m_KeyStrokes w; m_CharStrokes := m_CharStrokes w;
     unlimitedFPS := unlimitedFPS w;
     showMetadataOverlay := showMetadataOverlay w;
     showStatisticOverlay := showStatisticOverlay w;
     doSetupZoom := doSetupZoom w; lastFrame := lastFrame w;
     milestone := milestone w; running := running w |}.

Definition with_strokes (keys chars : list Z) (w : Window) : Window :=
  {| m_Player := m_Player w; m_Context := m_Context w;
     m_KeyStrokes := keys; m_CharStrokes := chars;
     unlimitedFPS := unlimitedFPS w;
     showMetadataOverlay := showMetadataOverlay w;
     showStatisticOverlay := showStatisticOverlay w;
     doSetupZoom := doSetupZoom w; lastFrame := lastFrame w;
     milestone := milestone w; running := running w |}.

Definition with_overlays (metadata statistic : bool) (w : Window) : Window :=
  {| m_Player := m_Player w; m_Context := m_Context w;
     m_KeyStrokes := m_KeyStrokes w; m_CharStrokes := m_CharStrokes w;
     unlimitedFPS := unlimitedFPS w;
     showMetadataOverlay := metadata;
     showStatisticOverlay := statistic;
     doSetupZoom := doSetupZoom w; lastFrame := lastFrame w;
     milestone := milestone w; running := running w |}.

Definition with_doSetupZoom (z : bool) (w : Window) : Window :=
  {| m_Player := m_Player w; m_Context := m_Context w;
     m_KeyStrokes := m_KeyStrokes w; m_CharStrokes := m_CharStrokes w;
     unlimitedFPS := unlimitedFPS w;
     showMetadataOverlay := showMetadataOverlay w;
     showStatisticOverlay := showStatisticOverlay w;
     doSetupZoom := z; lastFrame := lastFrame w;
     milestone := milestone w; running := running w |}.

Definition with_lastFrame (frame : Z) (w : Window) : Window :=
  {| m_Player := m_Player w; m_Context := m_Context w;
     m_KeyStrokes := m_KeyStrokes w; m_CharStrokes := m_CharStrokes w;
     unlimitedFPS := unlimitedFPS w;
     showMetadataOverlay := showMetadataOverlay w;
     showStatisticOverlay := showStatisticOverlay w;
     doSetupZoom := doSetupZoom w; lastFrame := frame;
     milestone := milestone w; running := running w |}.

Definition with_milestone (now : Z) (w : Window) : Window :=
  {| m_Player := m_Player w; m_Context := m_Context w;
     m_KeyStrokes := m_KeyStrokes w; m_CharStrokes := m_CharStrokes w;
     unlimitedFPS := unlimitedFPS w;
     showMetadataOverlay := showMetadataOverlay w;
     showStatisticOverlay := showStatisticOverlay w;
     doSetupZoom := doSetupZoom w; lastFrame := lastFrame w;
     milestone := now; running := running w |}.

Definition with_running (run : bool) (w : Window) : Window :=
  {| m_Player := m_Player w; m_Context := m_Context w;
     m_KeyStrokes := m_KeyStrokes w; m_CharStrokes := m_CharStrokes w;
     unlimitedFPS := unlimitedFPS w;
     showMetadataOverlay := showMetadataOverlay w;
     showStatisticOverlay := showStatisticOverlay w;
     doSetupZoom := doSetupZoom w; lastFrame := lastFrame w;
     milestone := milestone w; running := run |}.

Definition set_fitMode (mode : Z) (c : Context) : Context :=
  {| fitMode := mode; channels := channels c; liveTime := liveTime c;
     currentFrame := currentFrame c; playbackTime := playbackTime c;
     pCurrentImage := pCurrentImage c |}.

Definition set_channels (mask : bvec4) (c : Context) : Context :=
  {| fitMode := fitMode c; channels := mask; liveTime := liveTime c;
     currentFrame := currentFrame c; playbackTime := playbackTime c;
     pCurrentImage := pCurrentImage c |}.

Definition set_liveTime (time : Time) (c : Context) : Context :=
  {| fitMode := fitMode c; channels := channels c; liveTime := time;
     currentFrame := currentFrame c; playbackTime := playbackTime c;
     pCurrentImage := pCurrentImage c |}.

Definition set_clock (frame : Qc) (time : Time) (c : Context) : Context :=
  {| fitMode := fitMode c; channels := channels c; liveTime := liveTime c;
     currentFrame := frame; playbackTime := time;
     pCurrentImage := pCurrentImage c |}.

Definition set_pCurrentImage (image : option LoadedTexture) (c : Context) : Context :=
  {| fitMode := fitMode c; channels := channels c; liveTime := liveTime c;
     currentFrame := currentFrame c; playbackTime := playbackTime c;
     pCurrentImage := image |}.

(** What the outside world feeds one iteration of the loop. *)
Inductive Event :=
| KeyEvent (key action : Z)
| CharEvent (unicodeCodePoint : Z).

Record Tick := {
  events : list Event;            (* callbacks fired by [glfwPollEvents] *)
  resident : gmap MediaFrameReference LoadedTexture;
                                  (* textures resident when queried *)
  elapsedMicroSeconds : Z;        (* [vBlankMetronom.tick()] *)
  ctrlModifier : bool;            (* either control key is down *)
  shouldClose : bool;             (* [glfwWindowShouldClose] *)
  escPressed : bool;              (* [keyPressed(GLFW_KEY_ESC)] *)
  now : Z                         (* [duke_clock::now()], in clock ticks *)
}.

(** Code point of a character literal. *)
Definition code (c : ascii) : Z := Z.of_N (N_of_ascii c).

(** [duke_clock]: the number of its ticks in one millisecond. *)
Class ClockDecl := {
  ticks_per_millisecond : Z
}.

Section Loop.
Context `{FitModeDecl} `{GlfwDecl} `{ClockDecl}.

Import Player.

(** [DukeMainWindow::load]. *)
Definition load (timeline : Timeline) (frameDuration : Time) (mode speed : Z)
    (w : Window) : Window :=
  with_Context (set_fitMode mode)
    (with_Player (fun p => setPlaybackSpeed speed (Player.load timeline frameDuration p)) w).

(** [DukeMainWindow::onKey]. *)
Definition onKey (key action : Z) (w : Window) : Window :=
  if (action =? GLFW_PRESS) || (action =? GLFW_REPEAT)
  then with_strokes (m_KeyStrokes w ++ [key]) (m_CharStrokes w) w
  else w.

(** [DukeMainWindow::onChar]. *)
Definition onChar (unicodeCodePoint : Z) (w : Window) : Window :=
  with_strokes (m_KeyStrokes w) (m_CharStrokes w ++ [unicodeCodePoint]) w.

Definition dispatch (w : Window) (e : Event) : Window :=
  match e with
  | KeyEvent key action => onKey key action w
  | CharEvent unicodeCodePoint => onChar unicodeCodePoint w
  end.

(** The mode handed to [textureCache.prepare]. *)
Definition iterationMode (speed : Z) : IterationMode :=
  if speed <? 0 then BACKWARD
  else if speed >? 0 then FORWARD
  else PINGPONG.

(** The lambda [togglePlayStop]: the player after the call and the flag
    returned. *)
Definition togglePlayStop (p : Player.t) : Player.t * bool :=
  let speed := if getPlaybackSpeed p =? 0 then 1 else 0 in
  (setPlaybackSpeed speed p, negb (speed =? 0)).

(** The lambda [display]. *)
Definition display (w : Window) (msg : Message) : Call :=
  SetStatus (liveTime (m_Context w)) msg.

(** The lambda [setupZoom]; the zoom value and the pan it resets are not
    modelled. *)
Definition setupZoom (w : Window) : Window :=
  if (fitMode (m_Context w) =? FREE) || negb (doSetupZoom w) then w
  else with_doSetupZoom false w.

(** The body of [for (const Track &track : m_Player.getTimeline())]. *)
Definition renderTrack (tick : Tick) (frame : Z) (track : Track)
    (w : Window) : Window * list Call :=
  if disabled track then (w, [])
  else
    match clipContaining track frame with
    | None => (w, [])
    | Some clip =>
        let w := with_Context (set_pCurrentImage None) w in
        let mfr := getMediaFrameReferenceAt track frame in
        let '(w, image) :=
          match fst mfr with
          | Some _ =>
              match getLoadedTexture (resident tick) mfr with
              | Some pLoadedTexture =>
                  (setupZoom (with_Context (set_pCurrentImage (Some pLoadedTexture)) w),
                   [RenderWithBoundTexture pLoadedTexture])
              | None => (w, [DrawText "missing frame" 100 100 1 3])
              end
          | None => (w, [])
          end in
        (w, image
            ++ match pOverlay clip with
               | Some pOverlayTrack => [RenderOverlay pOverlayTrack]
               | None => []
               end
            ++ (if showMetadataOverlay w then [RenderMetadataOverlay] else []))
    end.

Fixpoint renderTracks (tick : Tick) (frame : Z) (timeline : list Track)
    (w : Window) : Window * list Call :=
  match timeline with
  | [] => (w, [])
  | track :: rest =>
      let '(w, calls) := renderTrack tick frame track w in
      let '(w, calls') := renderTracks tick frame rest w in
      (w, calls ++ calls')
  end.

(** [// updating time].  [Time(elapsedMicroSeconds)], the conversion from a
    duration in microseconds, is taken as [Time(count, 1000000)]. *)
Definition updateTime (tick : Tick) (w : Window) : Window :=
  let offset : Time :=
    if unlimitedFPS w then getFrameDuration (m_Player w)
    else mkTime (elapsedMicroSeconds tick) 1000000 in
  let w := with_Player (offsetPlaybackTime offset) w in
  with_Context
    (fun c => set_liveTime (liveTime c + mkTime (elapsedMicroSeconds tick) 1000000)%Qc c) w.

Definition toggleChannel (mask : bvec4) (w : Window) : Window :=
  with_Context
    (fun c => set_channels (if bvec4_eqb (channels c) mask then all else mask) c) w.

(** One turn of [for (const int key : m_CharStrokes) switch (key)]. *)
Definition handleChar (key : Z) (w : Window) : result (Window * list Call) :=
  if key =? code " " then
    let '(p, playing) := togglePlayStop (m_Player w) in
    let w := with_Player (fun _ => p) w in
    Ok (w, [display w (Text (if playing then "play" else "stop"))])
  else if key =? code "r" then Ok (toggleChannel r w, [])
  else if key =? code "g" then Ok (toggleChannel g w, [])
  else if key =? code "b" then Ok (toggleChannel b w, [])
  else if key =? code "a" then Ok (toggleChannel a w, [])
  else if (key =? code "*") || (key =? code "+") || (key =? code "-") then
    Ok (w, [display w ExposureText])
  else if key =? code "m" then
    Ok (with_overlays (negb (showMetadataOverlay w)) (showStatisticOverlay w) w, [])
  else if key =? code "s" then
    Ok (with_overlays (showMetadataOverlay w) (negb (showStatisticOverlay w)) w, [])
  else if key =? code "f" then
    '(mode, _) ← setNextMode (fitMode (m_Context w));
    let w := with_doSetupZoom true (with_Context (set_fitMode mode) w) in
    msg ← getFitModeString (fitMode (m_Context w));
    Ok (w, [display w (Text msg)])
  else Ok (w, []).

Fixpoint handleChars (keys : list Z) (w : Window) : result (Window * list Call) :=
  match keys with
  | [] => Ok (w, [])
  | key :: rest =>
      '(w, calls) ← handleChar key w;
      '(w, calls') ← handleChars rest w;
      Ok (w, calls ++ calls')
  end.

(** One turn of [for (const int key : m_KeyStrokes) switch (key)]. *)
Definition handleKey (ctrl : bool) (key : Z) (w : Window) : Window :=
  if key =? GLFW_KEY_HOME then
    with_Player (fun p => cue (first (getRange (getTimeline p))) p) w
  else if key =? GLFW_KEY_END then
    with_Player (fun p => cue (last (getRange (getTimeline p))) p) w
  else if key =? GLFW_KEY_LEFT then
    with_Player (cueRelative (if ctrl then -25 else -1)) w
  else if key =? GLFW_KEY_RIGHT then
    with_Player (cueRelative (if ctrl then 25 else 1)) w
  else w.

(** [// dumping cache state]: whether the branch is taken. *)
Definition dumpDue (now milestone : Z) : bool :=
  100 * ticks_per_millisecond <? now - milestone.

Definition dump (tick : Tick) (w : Window) : Window * list Call :=
  if dumpDue (now tick) (milestone w)
  then (with_milestone (now tick) w, [DumpState; MetronomCompute; MetronomCompute])
  else (w, []).

(** The body of [while (running)]. *)
Definition iteration (tick : Tick) (w : Window) : result (Window * list Call) :=
  let w := fold_left dispatch (events tick) w in
  let w := with_Context
             (set_clock (getCurrentFrame (m_Player w)) (getPlaybackTime (m_Player w))) w in
  let frame := to_size_t (round (currentFrame (m_Context w))) in
  let speed := getPlaybackSpeed (m_Player w) in
  let mode := iterationMode speed in
  let '(w, rendered) := renderTracks tick frame (tracks (getTimeline (m_Player w))) w in
  let overlays :=
    (if showStatisticOverlay w then [RenderStatisticOverlay] else [])
      ++ [RenderStatusOverlay] in
  let w := updateTime tick w in
  let '(w, ticked) :=
    if frame =? lastFrame w then (w, [])
    else (with_lastFrame frame w, [FrameMetronomTick]) in
  '(w, shown) ← handleChars (m_CharStrokes w) w;
  let w := with_strokes (m_KeyStrokes w) [] w in
  let w := fold_left (fun w key => handleKey (ctrlModifier tick) key w) (m_KeyStrokes w) w in
  let w := with_strokes [] (m_CharStrokes w) w in
  let w := with_running (negb (shouldClose tick || escPressed tick)) w in
  let '(w, dumped) := dump tick w in
  Ok (w, [PollEvents; Prepare frame mode; Clear] ++ rendered ++ overlays
           ++ [SwapBuffers] ++ ticked ++ shown ++ dumped).

(** [while (running)]: one [Tick] of input per iteration.  The result is the
    calls made, iteration by iteration, and how the loop was left: the
    window when it ended or the input ran out, or the exception. *)
Fixpoint loop (ticks : list Tick) (w : Window) : list (list Call) * result Window :=
  if running w then
    match ticks with
    | [] => ([], Ok w)
    | tick :: rest =>
        match iteration tick w with
        | Ok (w, calls) =>
            let '(trace, final) := loop rest w in (calls :: trace, final)
        | Throw what => ([], Throw what)
        end
    end
  else ([], Ok w).

(** [DukeMainWindow::run]: the locals are initialised, [start] being the
    first reading of the clock, and the loop is entered. *)
Definition run (start : Z) (ticks : list Tick) (w : Window) : list (list Call) * result Window :=
  loop ticks
    (with_running true
       (with_milestone start
          (with_lastFrame 0
             (with_doSetupZoom true (with_overlays false true w))))).
End Loop.

(** ** Mouse and resize callbacks *)

(** Conversion of an integer to [int] (32 bits, two's complement): the value
    an [int] holds after the arithmetic of the callbacks. *)
Definition to_int (z : Z) : Z := (z + 2 ^ 31) mod 2 ^ 32 - 2 ^ 31.

Definition is_int (z : Z) : Prop := - 2 ^ 31 <= z < 2 ^ 31.

Module Mouse.

(** The button code of GLFW the click callback tests. *)
Class GlfwMouseDecl := {
  GLFW_MOUSE_BUTTON_LEFT : Z
}.

(** [glm::ivec2]. *)
Record ivec2 := {
  x : Z;
  y : Z
}.

(** The members of the window that the mouse and resize callbacks read and
    write; [pan] is [m_Context.pan].  They are disjoint from the members the
    body of the loop is modelled on. *)
Record t := {
  m_MousePos : ivec2;
  m_MouseLeftDown : bool;
  m_WindowDim : ivec2;
  pan : ivec2
}.

(** [DukeMainWindow::onWindowResize]; the call of [glViewport] is left out. *)
Definition onWindowResize (width height : Z) (p : t) : t :=
  {| m_MousePos := m_MousePos p; m_MouseLeftDown := m_MouseLeftDown p;
     m_WindowDim := {| x := width; y := height |};
     pan := pan p |}.

(** [DukeMainWindow::onMouseDrag]. *)
Definition onMouseDrag (dx dy : Z) (p : t) : t :=
  {| m_MousePos := m_MousePos p; m_MouseLeftDown := m_MouseLeftDown p;
     m_WindowDim := m_WindowDim p;
     pan := {| x := to_int (x (pan p) + dx); y := to_int (y (pan p) - dy) |} |}.

(** [DukeMainWindow::onMouseMove]. *)
Definition onMouseMove (mx my : Z) (p : t) : t :=
  let dx := to_int (mx - x (m_MousePos p)) in
  let dy := to_int (my - y (m_MousePos p)) in
  let p := {| m_MousePos := {| x := mx; y := my |};
              m_MouseLeftDown := m_MouseLeftDown p;
              m_WindowDim := m_WindowDim p;
              pan := pan p |} in
  if m_MouseLeftDown p then onMouseDrag dx dy p else p.

(** [DukeMainWindow::onMouseClick]. *)
Definition onMouseClick `{GlfwDecl} `{GlfwMouseDecl} (buttonId buttonState : Z) (p : t) : t :=
  if buttonId =? GLFW_MOUSE_BUTTON_LEFT then
    {| m_MousePos := m_MousePos p;
       m_MouseLeftDown := buttonState =? GLFW_PRESS;
       m_WindowDim := m_WindowDim p;
       pan := pan p |}
  else p.

(** A run of mouse positions reported one after the other. *)
Definition moves (positions : list (Z * Z)) (p : t) : t :=
  fold_left (fun p m => onMouseMove (fst m) (snd m) p) positions p.

End Mouse.

(** ** Reading the input of an iteration *)

(** The keys that [onKey] queues for a batch of events: those pressed or
    repeated, in order of arrival. *)
Definition pressed `{GlfwDecl} (es : list Event) : list Z :=
  flat_map (fun e => match e with
                     | KeyEvent key action =>
                         if (action =? GLFW_PRESS) || (action =? GLFW_REPEAT)
                         then [key] else []
                     | CharEvent _ => []
                     end) es.

(** The code points that [onChar] queues for a batch of events. *)
Definition typed (es : list Event) : list Z :=
  flat_map (fun e => match e with
                     | KeyEvent _ _ => []
                     | CharEvent unicodeCodePoint => [unicodeCodePoint]
                     end) es.

(** ** Reading a trace *)

Definition is_draw (c : Call) : Prop :=
  match c with
  | RenderWithBoundTexture _ | DrawText _ _ _ _ _
  | RenderOverlay _ | RenderMetadataOverlay => True
  | _ => False
  end.

Definition is_status (c : Call) : Prop :=
  match c with
  | SetStatus _ _ => True
  | _ => False
  end.

(** The calls between the rendering of the tracks and the dump. *)
Definition is_frame_end (c : Call) : Prop :=
  match c with
  | RenderStatisticOverlay | RenderStatusOverlay | SwapBuffers
  | FrameMetronomTick | SetStatus _ _ => True
  | _ => False
  end.

(** Calls that neither prepare the cache nor dump its state. *)
Definition is_plain (c : Call) : Prop :=
  match c with
  | Prepare _ _ | DumpState => False
  | _ => True
  end.

Definition is_DumpState (c : Call) : bool :=
  match c with
  | DumpState => true
  | _ => false
  end.

(** Whether the calls of one iteration include [dumpState]. *)
Definition dumps (calls : list Call) : bool := existsb is_DumpState calls.

(** The clock reading of the latest iteration that dumped the state of the
    cache, or [start], the reading on entry of [run], when none did. *)
Fixpoint last_dump (start : Z) (ticks : list Tick) (trace : list (list Call)) : Z :=
  match ticks, trace with
  | tick :: ticks, calls :: trace =>
      last_dump (if dumps calls then now tick else start) ticks trace
  | _, _ => start
  end.

(** ** Sample declarations

    Concrete values for the declarations taken as parameters, used to run the
    definitions: the enumerators numbered in the order of [setNextMode]'s
    labels, the key codes of GLFW 3 and a clock that counts nanoseconds. *)

Definition sample_FitMode : FitModeDecl :=
  {| FREE := 0; INNER := 1; OUTER := 2; ACTUAL := 3;
     FitMode_distinct := ltac:(compute_done) |}.

Definition sample_Glfw : GlfwDecl :=
  {| GLFW_PRESS := 1; GLFW_REPEAT := 2;
     GLFW_KEY_HOME := 268; GLFW_KEY_END := 269;
     GLFW_KEY_LEFT := 263; GLFW_KEY_RIGHT := 262;
     GLFW_keys_distinct := ltac:(compute_done) |}.

Definition sample_Clock : ClockDecl :=
  {| ticks_per_millisecond := 1000000 |}.

(** A track with clips on frames 0..49 and 60..100, hence a gap on 50..59, on
    a timeline of range [[0, 100]] played at 24 frames per second. *)
Definition sample_Track : Track :=
  {| clips :=
       [ {| clipFirst := 0; clipEnd := 50; pStream := Some 1%positive;
            localFrame := fun frame => frame; pOverlay := None |};
         {| clipFirst := 60; clipEnd := 101; pStream := Some 2%positive;
            localFrame := fun frame => frame - 60; pOverlay := Some 1%positive |} ];
     disabled := false |}.

Definition sample_Timeline : Timeline :=
  {| tracks := [sample_Track]; getRange := {| first := 0; last := 100 |} |}.

Definition sample_Player (speed : Z) : Player.t :=
  {| Player.getTimeline := sample_Timeline;
     Player.getFrameDuration := mkTime 1 24;
     Player.getPlaybackTime := mkTime 0 1;
     Player.getPlaybackSpeed := speed |}.

Definition sample_Window (speed : Z) : Window :=
  {| m_Player := sample_Player speed;
     m_Context := {| fitMode := 1; channels := all; liveTime := mkTime 0 1;
                     currentFrame := Z2Qc 0; playbackTime := mkTime 0 1;
                     pCurrentImage := None |};
     m_KeyStrokes := []; m_CharStrokes := [];
     unlimitedFPS := false;
     showMetadataOverlay := false; showStatisticOverlay := true;
     doSetupZoom := true; lastFrame := 0; milestone := 0; running := true |}.

Definition sample_Mouse : Mouse.GlfwMouseDecl :=
  {| Mouse.GLFW_MOUSE_BUTTON_LEFT := 0 |}.

Definition sample_Pointer (down : bool) : Mouse.t :=
  {| Mouse.m_MousePos := {| Mouse.x := 10; Mouse.y := 20 |};
     Mouse.m_MouseLeftDown := down;
     Mouse.m_WindowDim := {| Mouse.x := 640; Mouse.y := 480 |};
     Mouse.pan := {| Mouse.x := 0; Mouse.y := 0 |} |}.

(** An iteration without input, an empty cache and the clock reading [now]. *)
Definition sample_Tick (now : Z) : Tick :=
  {| events := []; resident := ∅; elapsedMicroSeconds := 16667;
     ctrlModifier := false; shouldClose := false; escPressed := false;
     now := now |}.

(** * Properties *)

(** ** Fit modes *)

Section FitModeFacts.
Context `{FitModeDecl}.

Lemma FitMode_neq :
  FREE <> INNER /\ FREE <> OUTER /\ FREE <> ACTUAL /\
  INNER <> OUTER /\ INNER <> ACTUAL /\ OUTER <> ACTUAL.
Proof.
  pose proof FitMode_distinct as D.
  repeat (apply NoDup_cons in D; destruct D as [? D]).
  set_solver.
Qed.

Lemma setNextMode_FREE : setNextMode FREE = Ok (INNER, true).
Proof. unfold setNextMode. by rewrite Z.eqb_refl. Qed.

Lemma setNextMode_INNER : setNextMode INNER = Ok (OUTER, true).
Proof.
  destruct FitMode_neq as (? & ? & ? & ? & ? & ?). unfold setNextMode.
  repeat (case (Z.eqb_spec _ _); try congruence).
Qed.

Lemma setNextMode_OUTER : setNextMode OUTER = Ok (ACTUAL, false).
Proof.
  destruct FitMode_neq as (? & ? & ? & ? & ? & ?). unfold setNextMode.
  repeat (case (Z.eqb_spec _ _); try congruence).
Qed.

Lemma setNextMode_ACTUAL : setNextMode ACTUAL = Ok (INNER, true).
Proof.
  destruct FitMode_neq as (? & ? & ? & ? & ? & ?). unfold setNextMode.
  repeat (case (Z.eqb_spec _ _); try congruence).
Qed.

Lemma setNextMode_valid mode mode' flag :
  setNextMode mode = Ok (mode', flag) -> valid_FitMode mode /\ valid_FitMode mode'.
Proof.
  unfold setNextMode, valid_FitMode.
  repeat (case (Z.eqb_spec _ _); [intros -> [= <- <-]; tauto | intros _]).
  discriminate.
Qed.

Lemma setNextMode_returns mode :
  valid_FitMode mode ->
  exists mode' flag, setNextMode mode = Ok (mode', flag) /\ valid_FitMode mode'.
Proof.
  unfold valid_FitMode.
  intros [-> | [-> | [-> | ->]]]; do 2 eexists;
    (split; [apply setNextMode_FREE || apply setNextMode_INNER
             || apply setNextMode_OUTER || apply setNextMode_ACTUAL | tauto]).
Qed.

Lemma getFitModeString_returns mode :
  valid_FitMode mode -> exists msg, getFitModeString mode = Ok msg.
Proof.
  unfold getFitModeString. intros V.
  repeat (case (Z.eqb_spec _ _); [eauto | intros ?]).
  unfold valid_FitMode in V. tauto.
Qed.
End FitModeFacts.

(** C6.  A value of the enumeration outside its four enumerators is fatal and
    is not coerced: [setNextMode] and [getFitModeString] throw
    [runtime_error("unknown fitmode")] on every such value, and so does the
    handling of the [f] key in the loop; on each of the four enumerators both
    functions return, the throwing branch is not reached. *)
Theorem unknown_fitmode_is_fatal `{FitModeDecl} (mode : Z) :
  (~ valid_FitMode mode ->
     setNextMode mode = Throw "unknown fitmode"
     /\ getFitModeString mode = Throw "unknown fitmode"
     /\ forall w, fitMode (m_Context w) = mode ->
          handleChar (code "f") w = Throw "unknown fitmode")
  /\ (valid_FitMode mode ->
        returns (setNextMode mode) /\ returns (getFitModeString mode)).
Proof.
  split.
  - intros U. unfold valid_FitMode in U.
    assert (E : setNextMode mode = Throw "unknown fitmode").
    { unfold setNextMode. repeat (case (Z.eqb_spec _ _); [tauto | intros _]). done. }
    split; [exact E | split].
    + unfold getFitModeString. repeat (case (Z.eqb_spec _ _); [tauto | intros _]). done.
    + intros w <-. unfold handleChar. cbn. by rewrite E.
  - intros V. unfold returns, setNextMode, getFitModeString. split.
    + repeat (case (Z.eqb_spec _ _); [eauto | intros ?]).
      unfold valid_FitMode in V. tauto.
    + repeat (case (Z.eqb_spec _ _); [eauto | intros ?]).
      unfold valid_FitMode in V. tauto.
Qed.

Lemma unknown_fitmode_is_fatal_witness :
  @setNextMode sample_FitMode 7 = Throw "unknown fitmode"
  /\ returns (@setNextMode sample_FitMode 2).
Proof.
  split.
  - apply (@unknown_fitmode_is_fatal sample_FitMode 7).
    unfold valid_FitMode. cbn. lia.
  - apply (@unknown_fitmode_is_fatal sample_FitMode 2).
    unfold valid_FitMode. cbn. lia.
Defined.

(** ** Direction of the prefetch and the play/stop toggle *)

Import Player.

Lemma iterationMode_sign (speed : Z) :
  (0 < speed -> iterationMode speed = FORWARD)
  /\ (speed < 0 -> iterationMode speed = BACKWARD)
  /\ (speed = 0 -> iterationMode speed = PINGPONG).
Proof.
  unfold iterationMode.
  destruct (Z.ltb_spec speed 0), (Z.gtb_spec speed 0); repeat split; intros; lia || done.
Qed.

(** C10.  The space-bar toggle sets the speed to 1 when it is 0 and to 0 when
    it is not, and returns [true] exactly when the new speed is not 0; the
    handler of the space character shows "play" or "stop" accordingly.  A
    speed other than 0 and 1 is therefore lost by stopping and playing again:
    speed 5 becomes 0 and then 1. *)
Theorem togglePlayStop_speed (p : Player.t) :
  let p' := fst (togglePlayStop p) in
  let playing := snd (togglePlayStop p) in
  (getPlaybackSpeed p = 0 -> getPlaybackSpeed p' = 1)
  /\ (getPlaybackSpeed p <> 0 -> getPlaybackSpeed p' = 0)
  /\ (playing = true <-> getPlaybackSpeed p' <> 0)
  /\ (forall (D : FitModeDecl) w, m_Player w = p ->
        @handleChar D (code " ") w
        = Ok (with_Player (fun _ => p') w,
              [SetStatus (liveTime (m_Context w))
                 (Text (if playing then "play" else "stop"))]))
  /\ (getPlaybackSpeed p = 5 ->
        getPlaybackSpeed p' = 0
        /\ getPlaybackSpeed (fst (togglePlayStop p')) = 1).
Proof.
  assert (S : forall (D : FitModeDecl) w, m_Player w = p ->
            @handleChar D (code " ") w
            = Ok (with_Player (fun _ => fst (togglePlayStop p)) w,
                  [SetStatus (liveTime (m_Context w))
                     (Text (if snd (togglePlayStop p) then "play" else "stop"))])).
  { intros D w <-. unfold handleChar. rewrite Z.eqb_refl.
    by destruct (togglePlayStop (m_Player w)). }
  unfold togglePlayStop in *. cbn in *.
  destruct (Z.eqb_spec (getPlaybackSpeed p) 0) as [E | E]; cbn in *;
    repeat split; intros; try (lia || done); by apply S.
Qed.

Lemma togglePlayStop_speed_witness :
  getPlaybackSpeed (fst (togglePlayStop (sample_Player 5))) = 0
  /\ getPlaybackSpeed (fst (togglePlayStop (fst (togglePlayStop (sample_Player 5))))) = 1.
Proof.
  apply (togglePlayStop_speed (sample_Player 5)). reflexivity.
Defined.

(** ** Player: cueing and the clock *)

Section PlayerFacts.
Local Open Scope Qc_scope.

Lemma round_Z2Qc (z : Z) : round (Z2Qc z) = z.
Proof.
  unfold round, Z2Qc, Qcplus, Q2Qc, this.
  rewrite !Qred_correct. unfold Qfloor, Qplus, inject_Z. cbn.
  symmetry. apply Z.div_unique with 1%Z; lia.
Qed.

Lemma frameToTime_frame (frame : Z) (frameDuration : Time) :
  0 < frameDuration -> frameToTime frame frameDuration / frameDuration = Z2Qc frame.
Proof.
  intros P. unfold frameToTime. field.
  intros E. rewrite E in P. by apply Qclt_not_eq in P.
Qed.

Lemma clamp_in_range (r : Range) (frame : Z) :
  (first r <= last r)%Z -> (first r <= clamp r frame <= last r)%Z.
Proof. unfold clamp. lia. Qed.

Lemma clamp_id (r : Range) (frame : Z) :
  (first r <= frame <= last r)%Z -> clamp r frame = frame.
Proof. unfold clamp. lia. Qed.

Lemma cue_cue (f1 f2 : Z) (p : Player.t) : cue f2 (cue f1 p) = cue f2 p.
Proof. reflexivity. Qed.

Lemma getCurrentFrame_cue (frame : Z) (p : Player.t) :
  0 < getFrameDuration p ->
  getCurrentFrame (cue frame p) = Z2Qc (clamp (getRange (getTimeline p)) frame).
Proof. intros P. unfold getCurrentFrame, cue. cbn. by apply frameToTime_frame. Qed.

(** A player that stands on the integer frame [start] is the player cued
    there. *)
Lemma standing_is_cued (start : Z) (p : Player.t) :
  0 < getFrameDuration p ->
  (first (getRange (getTimeline p)) <= start <= last (getRange (getTimeline p)))%Z ->
  getCurrentFrame p = Z2Qc start ->
  p = cue start p.
Proof.
  intros P R E. destruct p as [tl fd pt sp]. unfold cue, setPlaybackTime. cbn in *.
  f_equal. rewrite clamp_id by done. unfold getCurrentFrame in E. cbn in E.
  unfold frameToTime. rewrite <- E. unfold Time in *. field.
  intros Z. rewrite Z in P. by apply Qclt_not_eq in P.
Qed.

Lemma iter_cueRelative (n : nat) (d start : Z) (p : Player.t) :
  0 < getFrameDuration p ->
  (first (getRange (getTimeline p)) <= start <= last (getRange (getTimeline p)))%Z ->
  getCurrentFrame p = Z2Qc start ->
  Nat.iter n (cueRelative d) p = cue (start + Z.of_nat n * d) p.
Proof.
  intros P R E. induction n as [| n IH].
  - change (Nat.iter 0 (cueRelative d) p) with p.
    replace (start + Z.of_nat 0 * d)%Z with start by lia.
    by apply standing_is_cued.
  - change (Nat.iter (S n) (cueRelative d) p)
      with (cueRelative d (Nat.iter n (cueRelative d) p)).
    rewrite IH. unfold cueRelative.
    rewrite getCurrentFrame_cue, round_Z2Qc, cue_cue by done.
    unfold cue. f_equal. f_equal. unfold clamp.
    assert (K : (0 <= d -> 0 <= Z.of_nat n * d)%Z /\ (d <= 0 -> Z.of_nat n * d <= 0)%Z)
      by nia.
    replace (Z.of_nat (S n) * d)%Z with (Z.of_nat n * d + d)%Z by lia.
    lia.
Qed.
End PlayerFacts.

Section KeyFacts.
Context `{GlfwDecl}.

Lemma GLFW_keys_neq :
  GLFW_KEY_HOME <> GLFW_KEY_END /\ GLFW_KEY_HOME <> GLFW_KEY_LEFT
  /\ GLFW_KEY_HOME <> GLFW_KEY_RIGHT /\ GLFW_KEY_END <> GLFW_KEY_LEFT
  /\ GLFW_KEY_END <> GLFW_KEY_RIGHT /\ GLFW_KEY_LEFT <> GLFW_KEY_RIGHT.
Proof.
  pose proof GLFW_keys_distinct as D.
  repeat (apply NoDup_cons in D; destruct D as [? D]).
  set_solver.
Qed.

Lemma handleKey_HOME ctrl w :
  handleKey ctrl GLFW_KEY_HOME w
  = with_Player (fun p => cue (first (getRange (getTimeline p))) p) w.
Proof. unfold handleKey. by rewrite Z.eqb_refl. Qed.

Lemma handleKey_END ctrl w :
  handleKey ctrl GLFW_KEY_END w
  = with_Player (fun p => cue (last (getRange (getTimeline p))) p) w.
Proof.
  destruct GLFW_keys_neq as (? & ? & ? & ? & ? & ?). unfold handleKey.
  repeat (case (Z.eqb_spec _ _); try congruence).
Qed.

Lemma handleKey_LEFT ctrl w :
  handleKey ctrl GLFW_KEY_LEFT w = with_Player (cueRelative (if ctrl then -25 else -1)) w.
Proof.
  destruct GLFW_keys_neq as (? & ? & ? & ? & ? & ?). unfold handleKey.
  repeat (case (Z.eqb_spec _ _); try congruence).
Qed.

Lemma handleKey_RIGHT ctrl w :
  handleKey ctrl GLFW_KEY_RIGHT w = with_Player (cueRelative (if ctrl then 25 else 1)) w.
Proof.
  destruct GLFW_keys_neq as (? & ? & ? & ? & ? & ?). unfold handleKey.
  repeat (case (Z.eqb_spec _ _); try congruence).
Qed.
End KeyFacts.

(** C2.  [cue f] is defined for every integer [f], negative and past the end
    included, and has no error result; it leaves the current frame on [f]
    clamped to the inclusive range [[first, last]] of the timeline.  The HOME
    and END keys of the loop seek to [first] and [last].  On the range
    [[0, 100]], [cue 150] gives frame 100 and [cue (-5)] gives frame 0. *)
Theorem cue_clamps (p : Player.t) (f : Z) :
  (0 < getFrameDuration p)%Qc ->
  first (getRange (getTimeline p)) <= last (getRange (getTimeline p)) ->
  let range := getRange (getTimeline p) in
  let frame := getCurrentFrame (cue f p) in
  (exists c, frame = Z2Qc c /\ round frame = c
             /\ first range <= c <= last range
             /\ (first range <= f <= last range -> c = f)
             /\ (f < first range -> c = first range)
             /\ (last range < f -> c = last range))
  /\ (forall (G : GlfwDecl) ctrl w, m_Player w = p ->
        getCurrentFrame (m_Player (@handleKey G ctrl GLFW_KEY_HOME w)) = Z2Qc (first range)
        /\ getCurrentFrame (m_Player (@handleKey G ctrl GLFW_KEY_END w)) = Z2Qc (last range))
  /\ (first range = 0 -> last range = 100 ->
        getCurrentFrame (cue 150 p) = Z2Qc 100 /\ getCurrentFrame (cue (-5) p) = Z2Qc 0).
Proof.
  intros P R range frame. subst range frame. split; [| split].
  - exists (clamp (getRange (getTimeline p)) f). rewrite getCurrentFrame_cue by done.
    rewrite round_Z2Qc. unfold clamp. repeat split; lia.
  - intros G ctrl w <-. rewrite handleKey_HOME, handleKey_END. cbn [m_Player with_Player].
    rewrite !getCurrentFrame_cue by done.
    rewrite !clamp_id by lia. done.
  - intros F L. rewrite !getCurrentFrame_cue by done.
    unfold clamp. rewrite F, L. done.
Qed.

Lemma cue_clamps_witness :
  getCurrentFrame (cue 150 (sample_Player 1)) = Z2Qc 100
  /\ getCurrentFrame (cue (-5) (sample_Player 1)) = Z2Qc 0.
Proof.
  apply (cue_clamps (sample_Player 1) 150); [reflexivity | cbn; lia | reflexivity | reflexivity].
Defined.

(** C8.  After [cue f1; cue f2] with [f2] in the range of the timeline the
    current frame is [f2], whatever [f1] was: the second cue alone decides the
    position. *)
Theorem cue_twice_is_last (p : Player.t) (f1 f2 : Z) :
  (0 < getFrameDuration p)%Qc ->
  first (getRange (getTimeline p)) <= f2 <= last (getRange (getTimeline p)) ->
  getCurrentFrame (cue f2 (cue f1 p)) = Z2Qc f2
  /\ round (getCurrentFrame (cue f2 (cue f1 p))) = f2
  /\ cue f2 (cue f1 p) = cue f2 p.
Proof.
  intros P R. rewrite cue_cue, getCurrentFrame_cue, round_Z2Qc, clamp_id by done. done.
Qed.

Lemma cue_twice_is_last_witness :
  getCurrentFrame (cue 42 (cue 7 (sample_Player 1))) = Z2Qc 42.
Proof.
  apply (cue_twice_is_last (sample_Player 1) 7 42); [reflexivity | cbn; lia].
Defined.

(** C7.  From a player that stands on a frame [start] of the timeline, [n]
    calls of [cueRelative d] leave the same current frame as the one call
    [cue (clamp (start + n * d))]; and every call [cueRelative delta] is the
    call [cue] at the current frame plus [delta].  The arrow keys of the loop
    are [cueRelative] by one frame, or by 25 with the control key. *)
Theorem cueRelative_iterated (p : Player.t) (start d : Z) (n : nat) :
  (0 < getFrameDuration p)%Qc ->
  first (getRange (getTimeline p)) <= start <= last (getRange (getTimeline p)) ->
  getCurrentFrame p = Z2Qc start ->
  let range := getRange (getTimeline p) in
  getCurrentFrame (Nat.iter n (cueRelative d) p)
  = getCurrentFrame (cue (clamp range (start + Z.of_nat n * d)) p)
  /\ getCurrentFrame (Nat.iter n (cueRelative d) p)
     = Z2Qc (clamp range (start + Z.of_nat n * d))
  /\ (forall delta q, cueRelative delta q = cue (round (getCurrentFrame q) + delta) q)
  /\ (forall (G : GlfwDecl) ctrl w,
        @handleKey G ctrl GLFW_KEY_LEFT w
        = with_Player (cueRelative (if ctrl then -25 else -1)) w
        /\ @handleKey G ctrl GLFW_KEY_RIGHT w
           = with_Player (cueRelative (if ctrl then 25 else 1)) w).
Proof.
  intros P R E range. subst range. rewrite (iter_cueRelative n d start p P R E).
  rewrite !getCurrentFrame_cue by done.
  repeat split.
  - f_equal. unfold clamp. lia.
  - apply handleKey_LEFT.
  - apply handleKey_RIGHT.
Qed.

Lemma cueRelative_iterated_witness :
  getCurrentFrame (Nat.iter 5 (cueRelative 25) (sample_Player 1)) = Z2Qc 100.
Proof.
  apply (cueRelative_iterated (sample_Player 1) 0 25 5);
    [reflexivity | cbn; lia | apply Qc_is_canon; reflexivity].
Defined.

(** C4.  With speed 0, [offsetPlaybackTime] changes neither the playback time
    nor the current frame, whatever time has elapsed, and so the time update
    of the loop leaves a paused player as it is; with any other speed the
    playback time advances by the elapsed time times the sign of the speed. *)
Theorem offsetPlaybackTime_sign (p : Player.t) (elapsed : Time) :
  (getPlaybackSpeed p = 0 ->
     getPlaybackTime (offsetPlaybackTime elapsed p) = getPlaybackTime p
     /\ getCurrentFrame (offsetPlaybackTime elapsed p) = getCurrentFrame p
     /\ forall tick w, m_Player w = p -> m_Player (updateTime tick w) = p)
  /\ (0 < getPlaybackSpeed p ->
        getPlaybackTime (offsetPlaybackTime elapsed p) = (getPlaybackTime p + elapsed)%Qc)
  /\ (getPlaybackSpeed p < 0 ->
        getPlaybackTime (offsetPlaybackTime elapsed p) = (getPlaybackTime p - elapsed)%Qc)
  /\ (getPlaybackSpeed p <> 0 ->
        getPlaybackTime (offsetPlaybackTime elapsed p)
        = (getPlaybackTime p + elapsed * Z2Qc (Z.sgn (getPlaybackSpeed p)))%Qc).
Proof.
  assert (Z : forall e q, getPlaybackSpeed q = 0 -> offsetPlaybackTime e q = q).
  { intros e [tl fd pt sp] S. cbn in S. subst sp.
    unfold offsetPlaybackTime, setPlaybackTime. cbn. f_equal.
    change (Z2Qc 0) with 0%Qc. unfold Time in *. ring. }
  repeat split.
  - by rewrite Z.
  - by rewrite Z.
  - intros tick w <-. unfold updateTime. cbn. by apply Z.
  - intros S. unfold offsetPlaybackTime. cbn.
    rewrite (Z.sgn_pos _ S). change (Z2Qc 1) with 1%Qc. unfold Time in *. ring.
  - intros S. unfold offsetPlaybackTime. cbn.
    rewrite (Z.sgn_neg _ S). change (Z2Qc (-1)) with (- (1))%Qc. unfold Time in *. ring.
Qed.

Lemma offsetPlaybackTime_sign_witness :
  getCurrentFrame (offsetPlaybackTime (mkTime 16667 1000000) (sample_Player 0))
  = getCurrentFrame (sample_Player 0)
  /\ getPlaybackTime (offsetPlaybackTime (mkTime 16667 1000000) (sample_Player (-2)))
     = (getPlaybackTime (sample_Player (-2)) - mkTime 16667 1000000)%Qc.
Proof.
  split.
  - destruct (offsetPlaybackTime_sign (sample_Player 0) (mkTime 16667 1000000)) as (Z & _).
    apply Z. reflexivity.
  - destruct (offsetPlaybackTime_sign (sample_Player (-2)) (mkTime 16667 1000000))
      as (_ & _ & N & _).
    apply N. reflexivity.
Defined.

(** ** The phases of one iteration

    Each phase of the loop body touches few fields of the window and makes
    calls of one kind only. *)

Lemma draw_plain c : is_draw c -> is_plain c.
Proof. by destruct c. Qed.

Lemma status_frame_end c : is_status c -> is_frame_end c.
Proof. by destruct c. Qed.

Lemma frame_end_plain c : is_frame_end c -> is_plain c.
Proof. by destruct c. Qed.

Lemma frame_end_not_draw c : is_frame_end c -> ~ is_draw c.
Proof. destruct c; cbn; tauto. Qed.

Section Phases.
Context `{FitModeDecl} `{GlfwDecl} `{ClockDecl}.

Lemma dispatch_keeps (es : list Event) (w : Window) :
  m_Player (fold_left dispatch es w) = m_Player w
  /\ m_Context (fold_left dispatch es w) = m_Context w
  /\ milestone (fold_left dispatch es w) = milestone w
  /\ lastFrame (fold_left dispatch es w) = lastFrame w.
Proof.
  revert w. induction es as [| e es IH]; intros w; [done |].
  cbn [fold_left]. destruct (IH (dispatch w e)) as (-> & -> & -> & ->).
  destruct e as [key action | cp]; cbn; [| done].
  unfold onKey. by destruct (_ || _).
Qed.

Lemma setupZoom_keeps (w : Window) :
  m_Player (setupZoom w) = m_Player w
  /\ m_Context (setupZoom w) = m_Context w
  /\ milestone (setupZoom w) = milestone w
  /\ showMetadataOverlay (setupZoom w) = showMetadataOverlay w.
Proof. unfold setupZoom. by destruct (_ || _). Qed.

Lemma renderTrack_keeps tick frame track (w : Window) :
  m_Player (fst (renderTrack tick frame track w)) = m_Player w
  /\ fitMode (m_Context (fst (renderTrack tick frame track w))) = fitMode (m_Context w)
  /\ milestone (fst (renderTrack tick frame track w)) = milestone w
  /\ Forall is_draw (snd (renderTrack tick frame track w)).
Proof.
  unfold renderTrack.
  destruct (disabled track); [by cbn |].
  destruct (clipContaining track frame) as [clip |]; [| by cbn].
  destruct (fst (getMediaFrameReferenceAt track frame)) as [s |].
  - destruct (getLoadedTexture _ _) as [t |]; cbn.
    + destruct (setupZoom_keeps
                  (with_Context (set_pCurrentImage (Some t))
                     (with_Context (set_pCurrentImage None) w))) as (-> & -> & -> & ->).
      cbn. repeat split. constructor; [done |].
      apply Forall_app. split; [by destruct (pOverlay clip); repeat constructor |].
      by destruct (showMetadataOverlay w); repeat constructor.
    + repeat split. constructor; [done |].
      apply Forall_app. split; [by destruct (pOverlay clip); repeat constructor |].
      by destruct (showMetadataOverlay w); repeat constructor.
  - cbn. repeat split.
    apply Forall_app. split; [by destruct (pOverlay clip); repeat constructor |].
    by destruct (showMetadataOverlay w); repeat constructor.
Qed.

Lemma renderTracks_keeps tick frame timeline (w : Window) :
  m_Player (fst (renderTracks tick frame timeline w)) = m_Player w
  /\ fitMode (m_Context (fst (renderTracks tick frame timeline w))) = fitMode (m_Context w)
  /\ milestone (fst (renderTracks tick frame timeline w)) = milestone w
  /\ Forall is_draw (snd (renderTracks tick frame timeline w)).
Proof.
  revert w. induction timeline as [| track rest IH]; intros w; [by cbn |].
  cbn [renderTracks].
  pose proof (renderTrack_keeps tick frame track w) as K.
  destruct (renderTrack tick frame track w) as [w1 calls]. cbn in K.
  pose proof (IH w1) as K'.
  destruct (renderTracks tick frame rest w1) as [w2 calls']. cbn in *.
  destruct K as (<- & <- & <- & D), K' as (-> & -> & -> & D').
  repeat split. by apply Forall_app.
Qed.

Lemma handleChar_keeps key (w w' : Window) calls :
  handleChar key w = Ok (w', calls) ->
  milestone w' = milestone w /\ Forall is_status calls.
Proof.
  unfold handleChar.
  repeat (case (_ =? _); [intros [= <- <-]; by repeat constructor |]).
  case (_ || _); [intros [= <- <-]; by repeat constructor |].
  repeat (case (_ =? _); [intros [= <- <-]; by repeat constructor |]).
  case (_ =? _); [| intros [= <- <-]; by repeat constructor].
  destruct (setNextMode _) as [[mode flag] |]; [| done]. cbn.
  destruct (getFitModeString _); [| done]. cbn.
  intros [= <- <-]. by repeat constructor.
Qed.

Lemma handleChars_keeps keys (w w' : Window) calls :
  handleChars keys w = Ok (w', calls) ->
  milestone w' = milestone w /\ Forall is_status calls.
Proof.
  revert w w' calls. induction keys as [| key rest IH]; intros w w' calls.
  - intros [= <- <-]. by split.
  - cbn [handleChars].
    destruct (handleChar key w) as [[w1 c1] |] eqn:E1; [| done]. cbn.
    destruct (handleChars rest w1) as [[w2 c2] |] eqn:E2; [| done]. cbn.
    intros [= <- <-].
    destruct (handleChar_keeps _ _ _ _ E1) as (<- & S1).
    destruct (IH _ _ _ E2) as (<- & S2).
    split; [done | by apply Forall_app].
Qed.

Lemma handleChar_returns key (w : Window) :
  valid_FitMode (fitMode (m_Context w)) ->
  exists w' calls,
    handleChar key w = Ok (w', calls) /\ valid_FitMode (fitMode (m_Context w')).
Proof.
  intros V. unfold handleChar.
  repeat (case (_ =? _); [by do 2 eexists |]).
  case (_ || _); [by do 2 eexists |].
  repeat (case (_ =? _); [by do 2 eexists |]).
  case (_ =? _); [| by do 2 eexists].
  destruct (setNextMode_returns _ V) as (mode' & flag & -> & V'). cbn.
  destruct (getFitModeString_returns _ V') as (msg & ->). cbn.
  by do 2 eexists.
Qed.

Lemma handleChars_returns keys (w : Window) :
  valid_FitMode (fitMode (m_Context w)) ->
  exists w' calls,
    handleChars keys w = Ok (w', calls) /\ valid_FitMode (fitMode (m_Context w')).
Proof.
  revert w. induction keys as [| key rest IH]; intros w V; [by do 2 eexists |].
  cbn [handleChars].
  destruct (handleChar_returns key w V) as (w1 & c1 & -> & V1). cbn.
  destruct (IH w1 V1) as (w2 & c2 & -> & V2). cbn.
  by do 2 eexists.
Qed.

Lemma handleKeys_keeps ctrl keys (w : Window) :
  milestone (fold_left (fun w key => handleKey ctrl key w) keys w) = milestone w
  /\ fitMode (m_Context (fold_left (fun w key => handleKey ctrl key w) keys w))
     = fitMode (m_Context w).
Proof.
  revert w. induction keys as [| key rest IH]; intros w; [done |].
  cbn [fold_left]. destruct (IH (handleKey ctrl key w)) as (-> & ->).
  unfold handleKey. by repeat (case (_ =? _); [done |]).
Qed.
End Phases.

Section Iteration.
Context `{FitModeDecl} `{GlfwDecl} `{ClockDecl}.

Lemma calls_shape (pre mid : list Call) (c : Call) (post last : list Call) :
  pre ++ mid ++ c :: post ++ last = pre ++ (mid ++ c :: post) ++ last.
Proof. by rewrite <- app_assoc. Qed.

Lemma dump_same tick (x w : Window) :
  milestone x = milestone w ->
  snd (dump tick x) = snd (dump tick w)
  /\ milestone (fst (dump tick x)) = milestone (fst (dump tick w))
  /\ running (fst (dump tick x)) = running x.
Proof. intros E. unfold dump. rewrite E. by destruct (dumpDue _ _). Qed.

(** What an iteration does.  When it returns, the cache was prepared once,
    first, for the frame and the speed read from the player; then the tracks
    were rendered; the state of the cache was dumped last, if at all, as the
    milestone on entry says.  It throws only from an unknown fit mode. *)
Lemma iteration_spec tick (w : Window) :
  match iteration tick w with
  | Ok (w', calls) =>
      let frame := to_size_t (round (getCurrentFrame (m_Player w))) in
      exists x rest,
        calls = PollEvents
                :: Prepare frame (iterationMode (getPlaybackSpeed (m_Player w)))
                :: Clear
                :: snd (renderTracks tick frame (tracks (getTimeline (m_Player w))) x)
                ++ rest ++ snd (dump tick w)
        /\ Forall is_frame_end rest
        /\ milestone w' = milestone (fst (dump tick w))
        /\ running w' = negb (shouldClose tick || escPressed tick)
        /\ (valid_FitMode (fitMode (m_Context w)) ->
              valid_FitMode (fitMode (m_Context w')))
  | Throw _ => ~ valid_FitMode (fitMode (m_Context w))
  end.
Proof.
  unfold iteration.
  destruct (dispatch_keeps (events tick) w) as (KP & KC & KM & KL).
  set (w0 := fold_left dispatch (events tick) w) in *.
  cbn [m_Player m_Context with_Context currentFrame set_clock].
  rewrite KP.
  match goal with |- context [renderTracks ?t ?f ?tl ?x] =>
    pose proof (renderTracks_keeps t f tl x) as KR;
    destruct (renderTracks t f tl x) as [w1 rendered] eqn:ER
  end.
  apply (f_equal snd) in ER.
  cbn [fst snd] in KR, ER. destruct KR as (KR1 & KR2 & KR3 & KR4).
  cbn [m_Context with_Context fitMode set_clock] in KR2. rewrite KC in KR2.
  cbn [milestone with_Context] in KR3.
  match goal with |- context [if ?c then (?x, []) else _] =>
    destruct c
  end.
  all: match goal with |- context [handleChars ?ks ?x] =>
    pose proof (handleChars_returns ks x) as RC;
    destruct (handleChars ks x) as [[w2 shown] |] eqn:EC;
      [ apply handleChars_keeps in EC; destruct EC as (EC1 & EC2)
      | cbn; cbn in RC; rewrite KR2 in RC; intros V;
        by destruct (RC V) as (? & ? & ? & _) ]
  end.
  all: cbn [mbind result_bind].
  all: match goal with |- context [dump ?t ?x] =>
    destruct (dump_same t x w) as (KD1 & KD2 & KD3);
      [ cbn [milestone with_running with_strokes];
        rewrite (proj1 (handleKeys_keeps _ _ _)); cbn [milestone with_strokes];
        rewrite EC1; cbn; congruence
      | assert (KF : fitMode (m_Context (fst (dump t x))) = fitMode (m_Context w2))
          by (unfold dump; destruct (dumpDue _ _); cbn;
              by rewrite (proj2 (handleKeys_keeps _ _ _)));
        destruct (dump t x) as [w3 dumped] ]
  end.
  all: cbn [fst snd] in *; rewrite <- KD1; subst rendered.
  all: eexists _, _; split;
    [ cbn [app]; do 3 f_equal;
      first [ apply calls_shape
            | apply (calls_shape _ _ SwapBuffers (FrameMetronomTick :: _)) ]
    | split; [| split; [done | split; [done |]]] ].
  all: try (intros V; rewrite KF; cbn in RC; rewrite KR2 in RC;
            destruct (RC V) as (? & ? & [= <- <-] & V'); exact V').
  all: rewrite ?Forall_app, ?Forall_cons; repeat split; try done.
  all: try (eapply Forall_impl; [exact EC2 | apply status_frame_end]).
  all: by destruct (showStatisticOverlay w1); repeat constructor.
Qed.

Lemma iteration_inv tick (w w' : Window) calls :
  iteration tick w = Ok (w', calls) ->
  exists rest,
    calls = PollEvents
            :: Prepare (to_size_t (round (getCurrentFrame (m_Player w))))
                 (iterationMode (getPlaybackSpeed (m_Player w)))
            :: Clear :: rest ++ snd (dump tick w)
    /\ Forall is_plain rest
    /\ milestone w' = milestone (fst (dump tick w))
    /\ running w' = negb (shouldClose tick || escPressed tick).
Proof.
  intros E. pose proof (iteration_spec tick w) as S. rewrite E in S. cbn in S.
  destruct S as (x & rest & -> & P & M & R & _).
  eexists. split; [by rewrite app_assoc |]. repeat split; try done.
  apply Forall_app. split.
  - eapply Forall_impl; [apply renderTracks_keeps | apply draw_plain].
  - eapply Forall_impl; [exact P | apply frame_end_plain].
Qed.

Lemma iteration_returns tick (w : Window) :
  valid_FitMode (fitMode (m_Context w)) ->
  exists w' calls,
    iteration tick w = Ok (w', calls) /\ valid_FitMode (fitMode (m_Context w')).
Proof.
  intros V. pose proof (iteration_spec tick w) as S.
  destruct (iteration tick w) as [[w' calls] |]; [| done].
  destruct S as (x & rest & _ & _ & _ & _ & V'). eauto.
Qed.
End Iteration.

(** ** Rendering the tracks *)

Section Rendering.
Context `{FitModeDecl}.

Lemma clipContaining_gap track frame :
  in_gap track frame -> clipContaining track frame = None.
Proof.
  unfold in_gap, clipContaining. induction (clips track) as [| c cs IH]; intros G; [done |].
  cbn [find]. destruct (covers frame c) eqn:E.
  - exfalso. apply (G c); [by left |]. unfold covers in E. lia.
  - apply IH. intros c' I. apply G. by right.
Qed.

Lemma renderTrack_miss tick frame track clip (w : Window) :
  disabled track = false ->
  clipContaining track frame = Some clip ->
  fst (getMediaFrameReferenceAt track frame) <> None ->
  getLoadedTexture (resident tick) (getMediaFrameReferenceAt track frame) = None ->
  renderTrack tick frame track w
  = (with_Context (set_pCurrentImage None) w,
     [DrawText "missing frame" 100 100 1 3]
       ++ match pOverlay clip with
          | Some pOverlayTrack => [RenderOverlay pOverlayTrack]
          | None => []
          end
       ++ (if showMetadataOverlay w then [RenderMetadataOverlay] else [])).
Proof.
  intros D C S M. unfold renderTrack. rewrite D, C, M.
  by destruct (fst (getMediaFrameReferenceAt track frame)).
Qed.

Lemma renderTracks_In tick frame track timeline c (w : Window) :
  In track timeline ->
  (forall x, In c (snd (renderTrack tick frame track x))) ->
  In c (snd (renderTracks tick frame timeline w)).
Proof.
  intros I A. revert w. induction timeline as [| t rest IH]; intros w; [done |].
  cbn [renderTracks].
  destruct (renderTrack tick frame t w) as [w1 calls] eqn:E1.
  pose proof (IH' := fun I' => IH I' w1).
  destruct (renderTracks tick frame rest w1) as [w2 calls'].
  cbn [snd] in *. apply in_or_app. destruct I as [-> | I].
  - left. specialize (A w). by rewrite E1 in A.
  - right. by apply IH'.
Qed.
End Rendering.

(** C1.  In every iteration that returns, the cache is prepared, and the mode
    handed to [prepare] follows the sign of the speed read from the player:
    FORWARD when it is positive, BACKWARD when negative, PINGPONG when 0. *)
Theorem prepare_mode_follows_speed `{FitModeDecl} `{GlfwDecl} `{ClockDecl}
    (tick : Tick) (w w' : Window) (calls : list Call) :
  iteration tick w = Ok (w', calls) ->
  let speed := getPlaybackSpeed (m_Player w) in
  (exists frame, In (Prepare frame (iterationMode speed)) calls)
  /\ forall frame mode, In (Prepare frame mode) calls ->
       (0 < speed -> mode = FORWARD)
       /\ (speed < 0 -> mode = BACKWARD)
       /\ (speed = 0 -> mode = PINGPONG).
Proof.
  intros E speed. destruct (iteration_inv _ _ _ _ E) as (rest & -> & P & _).
  split; [eexists; right; by left |].
  intros frame mode I.
  assert (M : mode = iterationMode speed).
  { destruct I as [I | [I | [I | I]]]; try done; [by injection I |].
    apply in_app_or in I. destruct I as [I | I].
    - by apply (proj1 (List.Forall_forall _ _) P) in I.
    - unfold dump in I. destruct (dumpDue _ _); cbn in I; intuition discriminate. }
  rewrite M. apply iterationMode_sign.
Qed.

Lemma prepare_mode_follows_speed_witness :
  match @iteration sample_FitMode sample_Glfw sample_Clock
          (sample_Tick 0) (sample_Window (-3)) with
  | Ok (_, calls) => exists frame, In (Prepare frame BACKWARD) calls
  | Throw _ => False
  end.
Proof.
  destruct (@iteration_returns sample_FitMode sample_Glfw sample_Clock
              (sample_Tick 0) (sample_Window (-3))) as (w' & calls & E & _).
  { unfold valid_FitMode. cbn. lia. }
  rewrite E.
  apply (@prepare_mode_follows_speed sample_FitMode sample_Glfw sample_Clock _ _ _ _ E).
Defined.

(** C3.  When the clip under the current frame has a stream and
    [getLoadedTexture] answers a miss, the track is rendered by the
    placeholder text "missing frame" in place of the texture, and nothing
    throws: the rendering of a track has no error result, and the iteration
    of the loop that meets the miss returns. *)
Theorem miss_renders_placeholder `{FitModeDecl} `{GlfwDecl} `{ClockDecl}
    (tick : Tick) (frame : Z) (track : Track) (clip : Clip) :
  disabled track = false ->
  clipContaining track frame = Some clip ->
  fst (getMediaFrameReferenceAt track frame) <> None ->
  getLoadedTexture (resident tick) (getMediaFrameReferenceAt track frame) = None ->
  (forall w,
     exists rest,
       snd (renderTrack tick frame track w) = DrawText "missing frame" 100 100 1 3 :: rest
       /\ (forall texture, ~ In (RenderWithBoundTexture texture) rest)
       /\ pCurrentImage (m_Context (fst (renderTrack tick frame track w))) = None)
  /\ (forall w,
        valid_FitMode (fitMode (m_Context w)) ->
        In track (tracks (getTimeline (m_Player w))) ->
        frame = to_size_t (round (getCurrentFrame (m_Player w))) ->
        exists w' calls,
          iteration tick w = Ok (w', calls)
          /\ In (DrawText "missing frame" 100 100 1 3) calls).
Proof.
  intros D C S M.
  assert (R := fun w => renderTrack_miss tick frame track clip w D C S M).
  split.
  - intros w. rewrite R. eexists. split; [reflexivity |]. split; [| done].
    intros texture I. apply in_app_or in I.
    destruct (pOverlay clip), (showMetadataOverlay w); cbn in I; intuition discriminate.
  - intros w V I F.
    pose proof (iteration_spec tick w) as IS.
    destruct (iteration_returns tick w V) as (w' & calls & E & _).
    rewrite E in IS. cbn zeta in IS. destruct IS as (x & rest & -> & _).
    eexists w', _. split; [done |].
    do 3 right. apply in_or_app. left. rewrite <- F.
    apply (renderTracks_In tick frame track); [done |].
    intros y. rewrite R. by left.
Qed.

Lemma miss_renders_placeholder_witness :
  exists rest,
    snd (@renderTrack sample_FitMode (sample_Tick 0) 7 sample_Track (sample_Window 1))
    = DrawText "missing frame" 100 100 1 3 :: rest.
Proof.
  destruct (@miss_renders_placeholder sample_FitMode sample_Glfw sample_Clock
              (sample_Tick 0) 7 sample_Track
              {| clipFirst := 0; clipEnd := 50; pStream := Some 1%positive;
                 localFrame := fun frame => frame; pOverlay := None |})
    as (R & _); [reflexivity | reflexivity | discriminate | reflexivity |].
  destruct (R (sample_Window 1)) as (rest & E & _). by exists rest.
Defined.

(** C9.  For a frame in a gap of a track, [clipContaining] answers the "not
    found" sentinel and the loop renders nothing for the track: no call is
    made and the window is left as it was.  Nothing throws: the rendering has
    no error result and the iteration of the loop returns. *)
Theorem gap_renders_nothing `{FitModeDecl} `{GlfwDecl} `{ClockDecl}
    (tick : Tick) (frame : Z) (track : Track) :
  in_gap track frame ->
  clipContaining track frame = None
  /\ (forall w, renderTrack tick frame track w = (w, []))
  /\ (forall w,
        valid_FitMode (fitMode (m_Context w)) ->
        tracks (getTimeline (m_Player w)) = [track] ->
        frame = to_size_t (round (getCurrentFrame (m_Player w))) ->
        exists w' calls,
          iteration tick w = Ok (w', calls) /\ Forall (fun c => ~ is_draw c) calls).
Proof.
  intros G. pose proof (clipContaining_gap track frame G) as C.
  assert (R : forall w, renderTrack tick frame track w = (w, [])).
  { intros w. unfold renderTrack. rewrite C. by destruct (disabled track). }
  split; [done | split; [done |]].
  intros w V T F.
  pose proof (iteration_spec tick w) as IS.
  destruct (iteration_returns tick w V) as (w' & calls & E & _).
  rewrite E in IS. cbn zeta in IS. destruct IS as (x & rest & -> & P & _).
  eexists w', _. split; [done |].
  rewrite T, <- F. cbn [renderTracks]. rewrite R. cbn [snd app].
  repeat (apply Forall_cons; split; [tauto |]).
  apply Forall_app. split.
  - eapply Forall_impl; [exact P | apply frame_end_not_draw].
  - unfold dump. destruct (dumpDue _ _); cbn [snd]; repeat constructor; tauto.
Qed.

Lemma gap_renders_nothing_witness :
  clipContaining sample_Track 55 = None
  /\ @renderTrack sample_FitMode (sample_Tick 0) 55 sample_Track (sample_Window 1)
     = (sample_Window 1, []).
Proof.
  destruct (@gap_renders_nothing sample_FitMode sample_Glfw sample_Clock
              (sample_Tick 0) 55 sample_Track) as (C & R & _).
  { intros c [<- | [<- | []]]; cbn; lia. }
  split; [exact C | apply R].
Defined.

(** ** Throttling of the cache dump *)

Section Throttle.
Context `{FitModeDecl} `{GlfwDecl} `{ClockDecl}.

Lemma plain_no_dump (calls : list Call) :
  Forall is_plain calls -> dumps calls = false.
Proof.
  unfold dumps. induction 1 as [| c cs P _ IH]; [done |].
  cbn [existsb]. rewrite IH. by destruct c.
Qed.

Lemma iteration_dumps tick (w w' : Window) calls :
  iteration tick w = Ok (w', calls) ->
  dumps calls = dumpDue (now tick) (milestone w)
  /\ milestone w' = (if dumps calls then now tick else milestone w).
Proof.
  intros E. destruct (iteration_inv _ _ _ _ E) as (rest & -> & P & M & _).
  assert (D : dumps (PollEvents :: Prepare (to_size_t (round (getCurrentFrame (m_Player w))))
                       (iterationMode (getPlaybackSpeed (m_Player w)))
                     :: Clear :: rest ++ snd (dump tick w))
              = dumpDue (now tick) (milestone w)).
  { unfold dumps. cbn [existsb is_DumpState orb]. rewrite existsb_app.
    fold (dumps rest). rewrite (plain_no_dump rest P).
    unfold dump. by destruct (dumpDue _ _). }
  split; [exact D |]. rewrite D, M. unfold dump. by destruct (dumpDue _ _).
Qed.

Lemma loop_throttled (ticks : list Tick) :
  forall (w : Window) trace final,
    loop ticks w = (trace, final) ->
    forall (j : nat) tick calls,
      ticks !! j = Some tick -> trace !! j = Some calls ->
      dumps calls
      = dumpDue (now tick) (last_dump (milestone w) (take j ticks) (take j trace)).
Proof.
  induction ticks as [| t rest IH]; intros w trace final L j tick calls Tj Cj; [done |].
  cbn [loop] in L. destruct (running w); [| by injection L as <- _].
  destruct (iteration t w) as [[w1 c1] |] eqn:E; [| by injection L as <- _].
  destruct (loop rest w1) as [tr fin] eqn:L1. injection L as <- _.
  destruct (iteration_dumps _ _ _ _ E) as (D & M).
  destruct j as [| j].
  - injection Tj as <-. injection Cj as <-. exact D.
  - cbn in Tj, Cj. cbn [take last_dump]. rewrite <- M.
    by apply (IH w1 tr fin L1).
Qed.

Lemma last_dump_step (j : nat) :
  forall (start : Z) (ticks : list Tick) (trace : list (list Call)) tick calls,
    ticks !! j = Some tick -> trace !! j = Some calls ->
    last_dump start (take (S j) ticks) (take (S j) trace)
    = (if dumps calls then now tick
       else last_dump start (take j ticks) (take j trace)).
Proof.
  induction j as [| j IH]; intros start ticks trace tick calls Tj Cj;
    destruct ticks as [| t ticks]; destruct trace as [| c trace]; try done.
  - injection Tj as ->. injection Cj as ->. cbn.
    rewrite !take_0. by destruct (dumps calls).
  - cbn in Tj, Cj. change (take (S (S j)) (t :: ticks)) with (t :: take (S j) ticks).
    change (take (S (S j)) (c :: trace)) with (c :: take (S j) trace).
    cbn [last_dump take]. by apply IH.
Qed.
End Throttle.

(** C5.  In every run of the loop, an iteration calls [dumpState] exactly
    when more than 100 milliseconds lie between its reading of the clock and
    the reading at the previous call of [dumpState] (at the entry of [run] for
    the first call).  So the call is made only after at least 100 ms and never
    at a shorter interval; it is not made by every iteration: of two
    iterations in a row that are at most 100 ms apart, one at least does not
    call it. *)
Theorem dumpState_throttled `{FitModeDecl} `{GlfwDecl} `{ClockDecl}
    (start : Z) (ticks : list Tick) (w : Window)
    (trace : list (list Call)) (final : result Window)
    (j : nat) (tick : Tick) (calls : list Call) :
  run start ticks w = (trace, final) ->
  ticks !! j = Some tick ->
  trace !! j = Some calls ->
  let previous := last_dump start (take j ticks) (take j trace) in
  (In DumpState calls <-> 100 * ticks_per_millisecond < now tick - previous)
  /\ (In DumpState calls -> 100 * ticks_per_millisecond <= now tick - previous)
  /\ (forall tick' calls',
        ticks !! S j = Some tick' -> trace !! S j = Some calls' ->
        now tick' - now tick <= 100 * ticks_per_millisecond ->
        ~ (In DumpState calls /\ In DumpState calls')).
Proof.
  intros R Tj Cj previous. unfold run in R.
  assert (I : forall c, In DumpState c <-> dumps c = true).
  { intros c. unfold dumps. rewrite existsb_exists. split.
    - intros I. by exists DumpState.
    - intros (x & I & E). by destruct x. }
  pose proof (loop_throttled _ _ _ _ R j tick calls Tj Cj) as D.
  cbn [milestone with_running with_milestone] in D. fold previous in D.
  split; [| split].
  - rewrite I, D. unfold dumpDue. by rewrite Z.ltb_lt.
  - rewrite I, D. unfold dumpDue. rewrite Z.ltb_lt. lia.
  - intros tick' calls' Tj' Cj' Near [I1 I2].
    pose proof (loop_throttled _ _ _ _ R (S j) tick' calls' Tj' Cj') as D'.
    cbn [milestone with_running with_milestone] in D'.
    rewrite (last_dump_step j start ticks trace tick calls Tj Cj) in D'.
    apply I in I1, I2. rewrite I1 in D'. rewrite I2 in D'.
    symmetry in D'. unfold dumpDue in D'. apply Z.ltb_lt in D'. lia.
Qed.

Lemma dumpState_throttled_witness :
  let ticks := [sample_Tick 50000000; sample_Tick 150000000; sample_Tick 200000000] in
  let trace := fst (@run sample_FitMode sample_Glfw sample_Clock 0 ticks (sample_Window 1)) in
  In DumpState (nth 1 trace []) /\ ~ In DumpState (nth 2 trace []).
Proof.
  intros ticks trace.
  assert (R : @run sample_FitMode sample_Glfw sample_Clock 0 ticks (sample_Window 1)
              = (trace, snd (@run sample_FitMode sample_Glfw sample_Clock 0 ticks
                               (sample_Window 1))))
    by apply surjective_pairing.
  assert (C1 : trace !! 1%nat = Some (nth 1 trace [])) by (by vm_compute).
  assert (C2 : trace !! 2%nat = Some (nth 2 trace [])) by (by vm_compute).
  destruct (@dumpState_throttled sample_FitMode sample_Glfw sample_Clock
              0 ticks (sample_Window 1) trace _ 1 (sample_Tick 150000000) _
              R eq_refl C1) as (D1 & _).
  destruct (@dumpState_throttled sample_FitMode sample_Glfw sample_Clock
              0 ticks (sample_Window 1) trace _ 2 (sample_Tick 200000000) _
              R eq_refl C2) as (D2 & _).
  split.
  - apply (proj2 D1). by vm_compute.
  - intros I. apply (proj1 D2) in I. by vm_compute in I.
Defined.

(** * Further properties of the window *)

(** ** What each phase leaves alone *)

Section Shapes.
Context `{FitModeDecl} `{GlfwDecl} `{ClockDecl}.

(** Rendering writes the current image and the zoom flag, nothing else. *)
Lemma renderTrack_shape tick frame track (w : Window) :
  exists z image,
    fst (renderTrack tick frame track w)
    = with_doSetupZoom z (with_Context (set_pCurrentImage image) w).
Proof.
  unfold renderTrack.
  destruct (disabled track);
    [exists (doSetupZoom w), (pCurrentImage (m_Context w)); by destruct w as [? []] |].
  destruct (clipContaining track frame) as [clip |];
    [| exists (doSetupZoom w), (pCurrentImage (m_Context w)); by destruct w as [? []]].
  destruct (fst (getMediaFrameReferenceAt track frame)) as [s |].
  - destruct (getLoadedTexture _ _) as [t |]; cbn [fst].
    + unfold setupZoom. destruct (_ || _).
      * exists (doSetupZoom w), (Some t). by destruct w as [? []].
      * exists false, (Some t). by destruct w as [? []].
    + exists (doSetupZoom w), None. by destruct w as [? []].
  - exists (doSetupZoom w), None. by destruct w as [? []].
Qed.

Lemma renderTracks_shape tick frame timeline (w : Window) :
  exists z image,
    fst (renderTracks tick frame timeline w)
    = with_doSetupZoom z (with_Context (set_pCurrentImage image) w).
Proof.
  revert w. induction timeline as [| track rest IH]; intros w.
  - exists (doSetupZoom w), (pCurrentImage (m_Context w)). by destruct w as [? []].
  - cbn [renderTracks].
    destruct (renderTrack_shape tick frame track w) as (z1 & i1 & E1).
    destruct (renderTrack tick frame track w) as [w1 calls]. cbn [fst] in E1. subst w1.
    match goal with |- context [renderTracks ?t ?f ?l ?x] =>
      destruct (IH x) as (z2 & i2 & E2); destruct (renderTracks t f l x) as [w2 calls']
    end.
    cbn [fst] in *. subst w2. exists z2, i2. by destruct w as [? []].
Qed.

(** The key handlers write the player, nothing else. *)
Lemma handleKeys_shape ctrl keys (w : Window) :
  exists p, fold_left (fun w key => handleKey ctrl key w) keys w = with_Player (fun _ => p) w.
Proof.
  revert w. induction keys as [| key rest IH]; intros w.
  - exists (m_Player w). by destruct w.
  - cbn [fold_left]. destruct (IH (handleKey ctrl key w)) as (p & ->).
    exists p. unfold handleKey.
    repeat (case (_ =? _); [by destruct w |]). by destruct w.
Qed.

(** The character handlers never seek and never touch the queues, the frame
    counter or the live clock; the speed they leave is the old one, 0 or 1;
    what they show is stamped with the live time. *)
Lemma handleChar_fields key (w w' : Window) calls :
  handleChar key w = Ok (w', calls) ->
  m_KeyStrokes w' = m_KeyStrokes w /\ m_CharStrokes w' = m_CharStrokes w
  /\ lastFrame w' = lastFrame w /\ running w' = running w
  /\ liveTime (m_Context w') = liveTime (m_Context w)
  /\ getPlaybackTime (m_Player w') = getPlaybackTime (m_Player w)
  /\ getFrameDuration (m_Player w') = getFrameDuration (m_Player w)
  /\ getTimeline (m_Player w') = getTimeline (m_Player w)
  /\ (getPlaybackSpeed (m_Player w') = getPlaybackSpeed (m_Player w)
      \/ getPlaybackSpeed (m_Player w') = 0 \/ getPlaybackSpeed (m_Player w') = 1)
  /\ Forall (fun c => exists msg, c = SetStatus (liveTime (m_Context w)) msg) calls.
Proof.
  unfold handleChar.
  case (_ =? _).
  { unfold togglePlayStop. destruct (getPlaybackSpeed (m_Player w) =? 0);
      intros [= <- <-]; cbn; repeat split; try tauto; repeat constructor; by eexists. }
  repeat (case (_ =? _); [intros [= <- <-]; cbn; repeat split; first [done | tauto | by constructor] |]).
  case (_ || _);
    [intros [= <- <-]; cbn; repeat split; try tauto; repeat constructor; by eexists |].
  repeat (case (_ =? _); [intros [= <- <-]; cbn; repeat split; first [done | tauto | by constructor] |]).
  case (_ =? _); [| intros [= <- <-]; cbn; repeat split; first [done | tauto | by constructor]].
  destruct (setNextMode _) as [[mode flag] |]; [| done]. cbn.
  destruct (getFitModeString _); [| done]. cbn.
  intros [= <- <-]. cbn. repeat split; try tauto. repeat constructor; by eexists.
Qed.

Lemma handleChars_fields keys (w w' : Window) calls :
  handleChars keys w = Ok (w', calls) ->
  m_KeyStrokes w' = m_KeyStrokes w /\ m_CharStrokes w' = m_CharStrokes w
  /\ lastFrame w' = lastFrame w /\ running w' = running w
  /\ liveTime (m_Context w') = liveTime (m_Context w)
  /\ getPlaybackTime (m_Player w') = getPlaybackTime (m_Player w)
  /\ getFrameDuration (m_Player w') = getFrameDuration (m_Player w)
  /\ getTimeline (m_Player w') = getTimeline (m_Player w)
  /\ (getPlaybackSpeed (m_Player w') = getPlaybackSpeed (m_Player w)
      \/ getPlaybackSpeed (m_Player w') = 0 \/ getPlaybackSpeed (m_Player w') = 1)
  /\ Forall (fun c => exists msg, c = SetStatus (liveTime (m_Context w)) msg) calls.
Proof.
  revert w w' calls. induction keys as [| key rest IH]; intros w w' calls.
  - intros [= <- <-]. repeat split; first [done | tauto | by constructor].
  - cbn [handleChars].
    destruct (handleChar key w) as [[w1 c1] |] eqn:E1; [| done]. cbn.
    destruct (handleChars rest w1) as [[w2 c2] |] eqn:E2; [| done]. cbn.
    intros [= <- <-].
    destruct (handleChar_fields _ _ _ _ E1) as (A1 & A2 & A3 & A4 & A5 & A6 & A7 & A8 & A9 & A10).
    destruct (IH _ _ _ E2) as (B1 & B2 & B3 & B4 & B5 & B6 & B7 & B8 & B9 & B10).
    rewrite A5 in B10.
    repeat split; try congruence; [lia | by apply Forall_app].
Qed.
End Shapes.

Ltac fields :=
  cbn [m_Player m_Context m_KeyStrokes m_CharStrokes unlimitedFPS
       showMetadataOverlay showStatisticOverlay doSetupZoom lastFrame milestone
       running with_Player with_Context with_strokes with_overlays
       with_doSetupZoom with_lastFrame with_milestone with_running
       fitMode channels liveTime currentFrame playbackTime pCurrentImage
       set_fitMode set_channels set_liveTime set_clock set_pCurrentImage
       fst snd updateTime].

Ltac fields_in H :=
  cbn [m_Player m_Context m_KeyStrokes m_CharStrokes unlimitedFPS
       showMetadataOverlay showStatisticOverlay doSetupZoom lastFrame milestone
       running with_Player with_Context with_strokes with_overlays
       with_doSetupZoom with_lastFrame with_milestone with_running
       fitMode channels liveTime currentFrame playbackTime pCurrentImage
       set_fitMode set_channels set_liveTime set_clock set_pCurrentImage
       fst snd updateTime] in H.

Section Detail.
Context `{FitModeDecl} `{GlfwDecl} `{ClockDecl}.

(** Polling queues the pressed and repeated keys and the characters behind
    what was queued before, and changes nothing else. *)
Lemma dispatch_shape (es : list Event) (w : Window) :
  fold_left dispatch es w
  = with_strokes (m_KeyStrokes w ++ pressed es) (m_CharStrokes w ++ typed es) w.
Proof.
  revert w. induction es as [| e es IH]; intros w.
  - cbn. rewrite !app_nil_r. by destruct w.
  - cbn [fold_left]. rewrite IH. destruct e as [key action | cp]; cbn.
    + unfold onKey. destruct (_ || _); cbn.
      * rewrite <- app_assoc. by destruct w.
      * by destruct w.
    + rewrite <- app_assoc. by destruct w.
Qed.

(** The calls of an iteration that returns, in full, and the fields of the
    window it leaves behind. *)
Lemma iteration_detail tick (w w' : Window) calls :
  iteration tick w = Ok (w', calls) ->
  let frame := to_size_t (round (getCurrentFrame (m_Player w))) in
  let live := (liveTime (m_Context w) + mkTime (elapsedMicroSeconds tick) 1000000)%Qc in
  exists x shown,
    calls = [PollEvents; Prepare frame (iterationMode (getPlaybackSpeed (m_Player w))); Clear]
            ++ snd (renderTracks tick frame (tracks (getTimeline (m_Player w))) x)
            ++ (if showStatisticOverlay w then [RenderStatisticOverlay] else [])
            ++ [RenderStatusOverlay; SwapBuffers]
            ++ (if frame =? lastFrame w then [] else [FrameMetronomTick])
            ++ shown ++ snd (dump tick w)
    /\ Forall (fun c => exists msg, c = SetStatus live msg) shown
    /\ lastFrame w' = frame
    /\ m_KeyStrokes w' = [] /\ m_CharStrokes w' = []
    /\ liveTime (m_Context w') = live.
Proof.
  unfold iteration. rewrite dispatch_shape. fields.
  match goal with |- context [renderTracks ?t ?f ?tl ?x] =>
    destruct (renderTracks_shape t f tl x) as (z & image & SR);
    destruct (renderTracks t f tl x) as [w1 rendered] eqn:ER
  end.
  apply (f_equal snd) in ER. cbn [fst snd] in SR, ER. subst w1 rendered. fields.
  case (Z.eqb_spec _ (lastFrame w)); intros EF.
  all: match goal with |- context [handleChars ?ks ?x] =>
    destruct (handleChars ks x) as [[w2 shown] |] eqn:EC; [| done];
    destruct (handleChars_keeps _ _ _ _ EC) as (EM & _);
    destruct (handleChars_fields _ _ _ _ EC) as (F1 & F2 & F3 & _ & F5 & _ & _ & _ & _ & F10)
  end.
  all: fields_in EM; fields_in F1; fields_in F2; fields_in F3; fields_in F5; fields_in F10.
  all: cbn [mbind result_bind].
  all: match goal with |- context [fold_left ?f ?ks ?x] =>
    destruct (handleKeys_shape (ctrlModifier tick) ks x) as (p & ->)
  end.
  all: unfold dump; fields; rewrite EM; destruct (dumpDue _ _); intros [= <- <-]; fields.
  all: eexists _, shown; split; [by rewrite <- !app_assoc |].
  all: repeat split; try done; congruence.
Qed.
End Detail.

(** ** One iteration, in full *)





(** X3.  The live clock advances by the elapsed microseconds in every
    iteration, whatever the playback speed and the [unlimitedFPS] option, and
    every message handed to the status overlay in the iteration is stamped
    with the advanced time. *)
Theorem live_clock_advances `{FitModeDecl} `{GlfwDecl} `{ClockDecl}
    (tick : Tick) (w w' : Window) (calls : list Call) :
  iteration tick w = Ok (w', calls) ->
  let live := (liveTime (m_Context w) + mkTime (elapsedMicroSeconds tick) 1000000)%Qc in
  liveTime (m_Context w') = live
  /\ forall time msg, In (SetStatus time msg) calls -> time = live.
Proof.
  intros E live.
  destruct (iteration_detail _ _ _ _ E) as (x & shown & -> & S & _ & _ & _ & L).
  split; [exact L |]. intros time msg.
  pose proof (proj2 (proj2 (proj2 (renderTracks_keeps tick
                (to_size_t (round (getCurrentFrame (m_Player w))))
                (tracks (getTimeline (m_Player w))) x)))) as D.
  rewrite !in_app_iff. cbn [In].
  intros [I | [I | [I | [I | [I | [I | I]]]]]].
  - intuition discriminate.
  - by apply (proj1 (List.Forall_forall _ _) D) in I.
  - destruct (showStatisticOverlay w); cbn in I; intuition discriminate.
  - intuition discriminate.
  - destruct (_ =? _); cbn in I; intuition discriminate.
  - apply (proj1 (List.Forall_forall _ _) S) in I. destruct I as (m & I). by injection I.
  - unfold dump in I. destruct (dumpDue _ _); cbn in I; intuition discriminate.
Qed.

Lemma live_clock_advances_witness :
  match @iteration sample_FitMode sample_Glfw sample_Clock
          (sample_Tick 0) (sample_Window 0) with
  | Ok (w', _) => liveTime (m_Context w') = mkTime 16667 1000000
  | Throw _ => False
  end.
Proof.
  destruct (@iteration_returns sample_FitMode sample_Glfw sample_Clock
              (sample_Tick 0) (sample_Window 0)) as (w' & calls & E & _).
  { unfold valid_FitMode. cbn. lia. }
  rewrite E.
  destruct (@live_clock_advances sample_FitMode sample_Glfw sample_Clock _ _ _ _ E)
    as (L & _).
  rewrite L. apply Qc_is_canon. by vm_compute.
Defined.



(** ** The loop as a whole *)

Section Runs.
Context `{FitModeDecl} `{GlfwDecl} `{ClockDecl}.

Lemma loop_returns (ticks : list Tick) :
  forall w : Window,
    valid_FitMode (fitMode (m_Context w)) ->
    exists trace w',
      loop ticks w = (trace, Ok w') /\ valid_FitMode (fitMode (m_Context w')).
Proof.
  induction ticks as [| tick rest IH]; intros w V.
  - exists [], w. cbn. by destruct (running w).
  - cbn [loop]. destruct (running w); [| by exists [], w].
    destruct (iteration_returns tick w V) as (w1 & calls & -> & V1).
    destruct (IH w1 V1) as (trace & w' & -> & V'). by eexists _, _.
Qed.

(** While nobody asks to close, the loop takes every tick. *)
Lemma loop_takes_all (ticks : list Tick) :
  forall w : Window,
    valid_FitMode (fitMode (m_Context w)) ->
    running w = true ->
    Forall (fun tick => shouldClose tick || escPressed tick = false) ticks ->
    exists trace w',
      loop ticks w = (trace, Ok w') /\ length trace = length ticks
      /\ running w' = true /\ valid_FitMode (fitMode (m_Context w')).
Proof.
  induction ticks as [| tick rest IH]; intros w V R N.
  - exists [], w. cbn. by rewrite R.
  - cbn [loop]. rewrite R. apply Forall_cons in N. destruct N as (N & N').
    pose proof (iteration_spec tick w) as IS.
    destruct (iteration_returns tick w V) as (w1 & calls & E & V1).
    rewrite E in IS. cbn zeta in IS. destruct IS as (x & r & _ & _ & _ & R1 & _).
    rewrite E. rewrite N in R1. cbn in R1.
    destruct (IH w1 V1 R1 N') as (trace & w' & -> & L & R' & V').
    eexists _, _. split; [done |]. cbn. by rewrite L.
Qed.
End Runs.

(** X5.  Started with one of the four fit modes, [run] never throws: for any
    input it ends with a window, whose fit mode is again one of the four.  The
    throwing branches of [setNextMode] and [getFitModeString] are dead code in
    the loop. *)
Theorem run_never_throws `{FitModeDecl} `{GlfwDecl} `{ClockDecl}
    (start : Z) (ticks : list Tick) (w : Window) :
  valid_FitMode (fitMode (m_Context w)) ->
  exists trace w',
    run start ticks w = (trace, Ok w') /\ valid_FitMode (fitMode (m_Context w')).
Proof. intros V. unfold run. by apply loop_returns. Qed.

Lemma run_never_throws_witness :
  exists trace w',
    @run sample_FitMode sample_Glfw sample_Clock 0
      [ {| events := [CharEvent 102; CharEvent 102]; resident := ∅;
           elapsedMicroSeconds := 16667; ctrlModifier := false;
           shouldClose := false; escPressed := false; now := 5 |} ]
      (sample_Window 1)
    = (trace, Ok w').
Proof.
  destruct (@run_never_throws sample_FitMode sample_Glfw sample_Clock 0
              [ {| events := [CharEvent 102; CharEvent 102]; resident := ∅;
                   elapsedMicroSeconds := 16667; ctrlModifier := false;
                   shouldClose := false; escPressed := false; now := 5 |} ]
              (sample_Window 1)) as (trace & w' & R & _).
  { unfold valid_FitMode. cbn. lia. }
  by exists trace, w'.
Defined.

(** X6.  The loop runs one iteration per tick of input for as long as neither
    the window is asked to close nor escape is pressed, and the iteration in
    which that happens is the last one: ticks after it are not taken. *)
Theorem run_stops_on_close `{FitModeDecl} `{GlfwDecl} `{ClockDecl}
    (start : Z) (before after : list Tick) (closing : Tick) (w : Window) :
  valid_FitMode (fitMode (m_Context w)) ->
  Forall (fun tick => shouldClose tick || escPressed tick = false) before ->
  shouldClose closing || escPressed closing = true ->
  (exists trace w',
     run start before w = (trace, Ok w')
     /\ length trace = length before /\ running w' = true)
  /\ (exists trace w',
        run start (before ++ closing :: after) w = (trace, Ok w')
        /\ length trace = S (length before) /\ running w' = false).
Proof.
  intros V N C. unfold run.
  set (w0 := with_running true _).
  assert (V0 : valid_FitMode (fitMode (m_Context w0))) by done.
  assert (R0 : running w0 = true) by done.
  clearbody w0. clear V. split.
  - destruct (loop_takes_all before w0 V0 R0 N) as (trace & w' & L & Len & R & _).
    by exists trace, w'.
  - revert w0 V0 R0. induction before as [| tick rest IH]; intros w0 V0 R0.
    + cbn [app loop]. rewrite R0.
      pose proof (iteration_spec closing w0) as IS.
      destruct (iteration_returns closing w0 V0) as (w1 & calls & E & V1).
      rewrite E in IS. cbn zeta in IS. destruct IS as (x & r & _ & _ & _ & R1 & _).
      rewrite E. rewrite C in R1. cbn in R1.
      destruct after as [| t after]; cbn [loop]; rewrite R1; by eexists _, _.
    + apply Forall_cons in N. destruct N as (N & N').
      cbn [app loop]. rewrite R0.
      pose proof (iteration_spec tick w0) as IS.
      destruct (iteration_returns tick w0 V0) as (w1 & calls & E & V1).
      rewrite E in IS. cbn zeta in IS. destruct IS as (x & r & _ & _ & _ & R1 & _).
      rewrite E. rewrite N in R1. cbn in R1.
      destruct (IH N' w1 V1 R1) as (trace & w' & -> & L & R').
      eexists _, _. split; [done |]. cbn. by rewrite L.
Qed.

Lemma run_stops_on_close_witness :
  exists trace w',
    @run sample_FitMode sample_Glfw sample_Clock 0
      ([sample_Tick 1; sample_Tick 2]
         ++ {| events := []; resident := ∅; elapsedMicroSeconds := 16667;
               ctrlModifier := false; shouldClose := false; escPressed := true;
               now := 3 |} :: [sample_Tick 4; sample_Tick 5])
      (sample_Window 1)
    = (trace, Ok w')
    /\ length trace = 3%nat /\ running w' = false.
Proof.
  apply (@run_stops_on_close sample_FitMode sample_Glfw sample_Clock 0
           [sample_Tick 1; sample_Tick 2] [sample_Tick 4; sample_Tick 5]).
  - unfold valid_FitMode. cbn. lia.
  - by repeat constructor.
  - reflexivity.
Defined.

(** ** Rendering one track *)

(** X7.  On a cache hit the track is rendered with the resident texture:
    the texture is drawn first and once, no placeholder text is drawn, the
    context points at the texture, and the zoom is set up if it was due,
    which clears the flag in every fit mode but FREE. *)
Theorem hit_renders_texture `{FitModeDecl}
    (tick : Tick) (frame : Z) (track : Track) (clip : Clip)
    (texture : LoadedTexture) (w : Window) :
  disabled track = false ->
  clipContaining track frame = Some clip ->
  fst (getMediaFrameReferenceAt track frame) <> None ->
  getLoadedTexture (resident tick) (getMediaFrameReferenceAt track frame) = Some texture ->
  let w' := fst (renderTrack tick frame track w) in
  (exists rest,
     snd (renderTrack tick frame track w) = RenderWithBoundTexture texture :: rest
     /\ Forall (fun c => match c with
                         | RenderOverlay _ | RenderMetadataOverlay => True
                         | _ => False
                         end) rest)
  /\ pCurrentImage (m_Context w') = Some texture
  /\ (fitMode (m_Context w) <> FREE -> doSetupZoom w' = false)
  /\ (fitMode (m_Context w) = FREE -> doSetupZoom w' = doSetupZoom w).
Proof.
  intros D C S T. unfold renderTrack. rewrite D, C, T.
  destruct (fst (getMediaFrameReferenceAt track frame)); [| done].
  cbn [fst snd]. split; [| split; [| split]].
  - eexists. split; [reflexivity |]. apply Forall_app. split.
    + by destruct (pOverlay clip); repeat constructor.
    + by destruct (showMetadataOverlay _); repeat constructor.
  - unfold setupZoom. by destruct (_ || _).
  - intros N. unfold setupZoom. cbn.
    destruct (Z.eqb_spec (fitMode (m_Context w)) FREE); [done |].
    destruct (doSetupZoom w) eqn:EZ; cbn; [done | exact EZ].
  - intros F. unfold setupZoom. cbn. rewrite F, Z.eqb_refl. done.
Qed.

Lemma hit_renders_texture_witness :
  let tick := {| events := []; resident := {[ (Some 1%positive, 7) := 9%positive ]};
                 elapsedMicroSeconds := 16667; ctrlModifier := false;
                 shouldClose := false; escPressed := false; now := 0 |} in
  let w' := fst (@renderTrack sample_FitMode tick 7 sample_Track (sample_Window 1)) in
  pCurrentImage (m_Context w') = Some 9%positive /\ doSetupZoom w' = false.
Proof.
  intros tick w'.
  destruct (@hit_renders_texture sample_FitMode tick 7 sample_Track
              {| clipFirst := 0; clipEnd := 50; pStream := Some 1%positive;
                 localFrame := fun frame => frame; pOverlay := None |}
              9%positive (sample_Window 1))
    as (_ & P & Z & _); [reflexivity | reflexivity | discriminate | by vm_compute |].
  split; [exact P | apply Z; by vm_compute].
Defined.

(** X8.  The texture cache is consulted only for an enabled track whose clip
    under the frame has a stream.  A disabled track renders nothing and leaves
    the window as it is; a clip without a stream gets neither a texture nor
    the placeholder; in both cases, and in a gap, what is resident makes no
    difference. *)
Theorem cache_consulted_only_with_stream `{FitModeDecl}
    (tick : Tick) (frame : Z) (track : Track) (w : Window) :
  (disabled track = true -> renderTrack tick frame track w = (w, []))
  /\ (disabled track = false ->
        fst (getMediaFrameReferenceAt track frame) = None ->
        pCurrentImage (m_Context (fst (renderTrack tick frame track w)))
        = match clipContaining track frame with
          | Some _ => None
          | None => pCurrentImage (m_Context w)
          end
        /\ Forall (fun c => match c with
                            | RenderOverlay _ | RenderMetadataOverlay => True
                            | _ => False
                            end) (snd (renderTrack tick frame track w)))
  /\ (disabled track = true \/ fst (getMediaFrameReferenceAt track frame) = None ->
        forall tick', renderTrack tick' frame track w = renderTrack tick frame track w).
Proof.
  split; [| split].
  - intros D. unfold renderTrack. by rewrite D.
  - intros D S. unfold renderTrack. rewrite D, S.
    destruct (clipContaining track frame) as [clip |]; [| by cbn].
    cbn. split; [done |]. apply Forall_app. split.
    + by destruct (pOverlay clip); repeat constructor.
    + by destruct (showMetadataOverlay _); repeat constructor.
  - intros [D | S] tick'; unfold renderTrack.
    + by rewrite D.
    + by rewrite S.
Qed.

Lemma cache_consulted_only_with_stream_witness :
  let mute := {| clips := [ {| clipFirst := 0; clipEnd := 10; pStream := None;
                               localFrame := fun frame => frame;
                               pOverlay := Some 4%positive |} ];
                 disabled := false |} in
  Forall (fun c => match c with
                   | RenderOverlay _ | RenderMetadataOverlay => True
                   | _ => False
                   end)
    (snd (@renderTrack sample_FitMode (sample_Tick 0) 3 mute (sample_Window 1))).
Proof.
  intros mute.
  destruct (@cache_consulted_only_with_stream sample_FitMode (sample_Tick 0) 3 mute
              (sample_Window 1)) as (_ & S & _).
  apply S; reflexivity.
Defined.

(** X9.  The overlay of the clip under the frame is rendered on every frame
    of an enabled track, after the image and whether or not a texture was
    found, and the metadata overlay follows it when it is switched on. *)
Theorem overlay_always_rendered `{FitModeDecl}
    (tick : Tick) (frame : Z) (track : Track) (clip : Clip) (w : Window) :
  disabled track = false ->
  clipContaining track frame = Some clip ->
  exists image,
    snd (renderTrack tick frame track w)
    = image
      ++ match pOverlay clip with
         | Some pOverlayTrack => [RenderOverlay pOverlayTrack]
         | None => []
         end
      ++ (if showMetadataOverlay w then [RenderMetadataOverlay] else [])
    /\ (length image <= 1)%nat
    /\ Forall (fun c => match c with
                        | RenderWithBoundTexture _ | DrawText _ _ _ _ _ => True
                        | _ => False
                        end) image.
Proof.
  intros D C. unfold renderTrack. rewrite D, C.
  destruct (fst (getMediaFrameReferenceAt track frame)) as [s |].
  - destruct (getLoadedTexture _ _) as [t |]; cbn [snd].
    + destruct (setupZoom_keeps (with_Context (set_pCurrentImage (Some t))
                   (with_Context (set_pCurrentImage None) w))) as (_ & _ & _ & ->).
      eexists [_]. split; [reflexivity |]. split; [done | by repeat constructor].
    + eexists [_]. split; [reflexivity |]. split; [done | by repeat constructor].
  - cbn [snd]. exists []. split; [reflexivity |]. split; [cbn; lia | constructor].
Qed.

Lemma overlay_always_rendered_witness :
  In (RenderOverlay 1%positive)
    (snd (@renderTrack sample_FitMode (sample_Tick 0) 70 sample_Track (sample_Window 1))).
Proof.
  destruct (@overlay_always_rendered sample_FitMode (sample_Tick 0) 70 sample_Track
              {| clipFirst := 60; clipEnd := 101; pStream := Some 2%positive;
                 localFrame := fun frame => frame - 60; pOverlay := Some 1%positive |}
              (sample_Window 1)) as (image & -> & _); [reflexivity | reflexivity |].
  apply in_or_app. right. by left.
Defined.

(** ** The keys *)

(** X10.  The [f] key cycles the fit mode INNER, OUTER, ACTUAL and never comes
    back to FREE: whatever [setNextMode] returns is one of the three, stepping
    three times from there returns to it, and the flag it returns is [false]
    exactly on the step from OUTER to ACTUAL. *)
Theorem setNextMode_cycle `{FitModeDecl} (mode mode' : Z) (flag : bool) :
  setNextMode mode = Ok (mode', flag) ->
  mode' <> FREE
  /\ (mode' = INNER \/ mode' = OUTER \/ mode' = ACTUAL)
  /\ (flag = false <-> mode = OUTER)
  /\ (exists m1 f1 m2 f2 f3,
        setNextMode mode' = Ok (m1, f1)
        /\ setNextMode m1 = Ok (m2, f2)
        /\ setNextMode m2 = Ok (mode', f3)).
Proof.
  destruct FitMode_neq as (N1 & N2 & N3 & N4 & N5 & N6).
  pose proof setNextMode_INNER as SI. pose proof setNextMode_OUTER as SO.
  pose proof setNextMode_ACTUAL as SA.
  unfold setNextMode at 1.
  destruct (Z.eqb_spec mode FREE) as [-> | ?]; [intros [= <- <-] | ].
  { repeat split; try (congruence || tauto). by eexists _, _, _, _, _. }
  destruct (Z.eqb_spec mode INNER) as [-> | ?]; [intros [= <- <-] | ].
  { repeat split; try (congruence || tauto). by eexists _, _, _, _, _. }
  destruct (Z.eqb_spec mode OUTER) as [-> | ?]; [intros [= <- <-] | ].
  { repeat split; try (congruence || tauto). by eexists _, _, _, _, _. }
  destruct (Z.eqb_spec mode ACTUAL) as [-> | ?]; [intros [= <- <-] | done].
  repeat split; try (congruence || tauto). by eexists _, _, _, _, _.
Qed.

Lemma setNextMode_cycle_witness :
  exists m1 f1 m2 f2 f3,
    @setNextMode sample_FitMode 1 = Ok (m1, f1)
    /\ @setNextMode sample_FitMode m1 = Ok (m2, f2)
    /\ @setNextMode sample_FitMode m2 = Ok (1, f3).
Proof.
  apply (@setNextMode_cycle sample_FitMode 0 1 true). reflexivity.
Defined.

(** X11.  The four fit modes have four different names: from the text that
    [getFitModeString] returns the mode can be told. *)
Theorem getFitModeString_injective `{FitModeDecl} (mode1 mode2 : Z) (name : string) :
  getFitModeString mode1 = Ok name ->
  getFitModeString mode2 = Ok name ->
  mode1 = mode2.
Proof.
  unfold getFitModeString.
  repeat (case (Z.eqb_spec mode1 _); [intros -> | intros _]);
    repeat (case (Z.eqb_spec mode2 _); [intros -> | intros _]);
    congruence.
Qed.

Lemma getFitModeString_injective_witness :
  @getFitModeString sample_FitMode 0 <> @getFitModeString sample_FitMode 2.
Proof.
  intros E. assert (C : 0 = 2); [| discriminate].
  apply (@getFitModeString_injective sample_FitMode 0 2 "No fit");
    [reflexivity | by rewrite <- E].
Defined.

(** X12.  Polling queues the keys in the order in which they were pressed or
    repeated, behind what was queued before, and drops the other key actions
    (releases); every character is queued; nothing else of the window
    changes. *)
Theorem strokes_queued_in_order `{GlfwDecl} (es : list Event) (w : Window) :
  fold_left dispatch es w
  = with_strokes (m_KeyStrokes w ++ pressed es) (m_CharStrokes w ++ typed es) w
  /\ (forall key,
        In key (pressed es)
        <-> exists action, In (KeyEvent key action) es
                           /\ (action = GLFW_PRESS \/ action = GLFW_REPEAT))
  /\ (forall cp, In cp (typed es) <-> In (CharEvent cp) es).
Proof.
  split; [| split].
  - revert w. induction es as [| e es IH]; intros w.
    + cbn. rewrite !app_nil_r. by destruct w.
    + cbn [fold_left]. rewrite IH. destruct e as [key action | cp]; cbn.
      * unfold onKey. destruct (_ || _); cbn; [rewrite <- app_assoc |]; by destruct w.
      * rewrite <- app_assoc. by destruct w.
  - intros key. unfold pressed. rewrite in_flat_map. split.
    + intros ([k a | cp] & I & K); [| done].
      destruct (Z.eqb_spec a GLFW_PRESS), (Z.eqb_spec a GLFW_REPEAT);
        cbn in K; try done; destruct K as [<- | []]; exists a; tauto.
    + intros (a & I & P). exists (KeyEvent key a). split; [done |].
      destruct P as [-> | ->]; rewrite Z.eqb_refl, ?orb_true_r; by left.
  - intros cp. unfold typed. rewrite in_flat_map. split.
    + intros ([k a | c] & I & K); [done |]. by destruct K as [<- | []].
    + intros I. exists (CharEvent cp). split; [done | by left].
Qed.

Section CharFacts.
Context `{FitModeDecl}.

Lemma handleChar_player key (w w' : Window) calls :
  key <> code " " ->
  handleChar key w = Ok (w', calls) ->
  m_Player w' = m_Player w.
Proof.
  intros N. unfold handleChar.
  case (Z.eqb_spec key (code " ")); [done | intros _].
  repeat (case (_ =? _); [by intros [= <- <-] |]).
  case (_ || _); [by intros [= <- <-] |].
  repeat (case (_ =? _); [by intros [= <- <-] |]).
  case (_ =? _); [| by intros [= <- <-]].
  destruct (setNextMode _) as [[mode flag] |]; [| done]. cbn.
  destruct (getFitModeString _); [| done]. cbn.
  by intros [= <- <-].
Qed.

Lemma bvec4_eqb_eq (u v : bvec4) : bvec4_eqb u v = true <-> u = v.
Proof.
  destruct u as [[[u0 u1] u2] u3], v as [[[v0 v1] v2] v3]. cbn.
  destruct u0, u1, u2, u3, v0, v1, v2, v3; cbn; split; congruence.
Qed.
End CharFacts.

(** X13.  Typing never seeks: whatever characters are handled, the playback
    time, the current frame, the frame duration and the timeline of the player
    stay as they were, and the speed is left as it was or set to 0 or 1; with
    no space among the characters the player is not touched at all. *)
Theorem chars_never_seek `{FitModeDecl} (keys : list Z) (w w' : Window) (calls : list Call) :
  handleChars keys w = Ok (w', calls) ->
  getPlaybackTime (m_Player w') = getPlaybackTime (m_Player w)
  /\ getCurrentFrame (m_Player w') = getCurrentFrame (m_Player w)
  /\ getTimeline (m_Player w') = getTimeline (m_Player w)
  /\ (getPlaybackSpeed (m_Player w') = getPlaybackSpeed (m_Player w)
      \/ getPlaybackSpeed (m_Player w') = 0 \/ getPlaybackSpeed (m_Player w') = 1)
  /\ (~ In (code " ") keys -> m_Player w' = m_Player w).
Proof.
  intros E.
  destruct (handleChars_fields _ _ _ _ E) as (_ & _ & _ & _ & _ & T & D & L & S & _).
  repeat split; try done.
  - unfold getCurrentFrame. by rewrite T, D.
  - clear T D L S. revert w w' calls E.
    induction keys as [| key rest IH]; intros w w' calls E N.
    + by injection E as <- _.
    + cbn [handleChars] in E.
      destruct (handleChar key w) as [[w1 c1] |] eqn:E1; [| done]. cbn in E.
      destruct (handleChars rest w1) as [[w2 c2] |] eqn:E2; [| done]. cbn in E.
      injection E as <- _.
      rewrite (IH _ _ _ E2) by (intros I; apply N; by right).
      apply (handleChar_player key w w1 c1); [| done].
      intros ->. apply N. by left.
Qed.

Lemma chars_never_seek_witness :
  match @handleChars sample_FitMode [code "f"; code " "; code "r"] (sample_Window 3) with
  | Ok (w', _) => getPlaybackTime (m_Player w') = mkTime 0 1
  | Throw _ => False
  end.
Proof.
  destruct (@handleChars_returns sample_FitMode [code "f"; code " "; code "r"]
              (sample_Window 3)) as (w' & calls & E & _).
  { unfold valid_FitMode. cbn. lia. }
  rewrite E.
  destruct (@chars_never_seek sample_FitMode _ _ _ _ E) as (T & _).
  exact T.
Defined.

(** X14.  The keys [r], [g], [b] and [a] switch the channel mask and show
    nothing: the key of the channel that is shown alone switches back to the
    mask [all], any other of the four keys switches to its channel at once,
    and none of the four channels is the mask [all]. *)
Theorem channel_keys_toggle `{FitModeDecl} (key : ascii) (mask : bvec4) (w : Window) :
  In (key, mask) [("r"%char, r); ("g"%char, g); ("b"%char, b); ("a"%char, a)] ->
  handleChar (code key) w = Ok (toggleChannel mask w, [])
  /\ (channels (m_Context w) = mask ->
        channels (m_Context (toggleChannel mask w)) = all)
  /\ (channels (m_Context w) <> mask ->
        channels (m_Context (toggleChannel mask w)) = mask)
  /\ mask <> all
  /\ m_Player (toggleChannel mask w) = m_Player w.
Proof.
  intros I. split; [| split; [| split; [| split]]].
  - cbn in I. destruct I as [[= <- <-] | [[= <- <-] | [[= <- <-] | [[= <- <-] | []]]]];
      reflexivity.
  - intros E. cbn. rewrite (proj2 (bvec4_eqb_eq _ _) E). done.
  - intros N. cbn. destruct (bvec4_eqb (channels (m_Context w)) mask) eqn:E; [| done].
    by apply bvec4_eqb_eq in E.
  - cbn in I. destruct I as [[= <- <-] | [[= <- <-] | [[= <- <-] | [[= <- <-] | []]]]];
      discriminate.
  - done.
Qed.

Lemma channel_keys_toggle_witness :
  channels (m_Context (toggleChannel g (sample_Window 1))) = g.
Proof.
  destruct (@channel_keys_toggle sample_FitMode "g"%char g (sample_Window 1))
    as (_ & _ & S & _).
  - right. by left.
  - apply S. discriminate.
Defined.

(** X15.  The keys [m] and [s] toggle the metadata and the statistics overlay
    and show nothing; each leaves the other flag alone, and typing either key
    twice leaves the window as it was. *)
Theorem overlay_keys_toggle `{FitModeDecl} (w : Window) :
  (exists w1, handleChar (code "m") w = Ok (w1, [])
              /\ showMetadataOverlay w1 = negb (showMetadataOverlay w)
              /\ showStatisticOverlay w1 = showStatisticOverlay w)
  /\ (exists w1, handleChar (code "s") w = Ok (w1, [])
                 /\ showStatisticOverlay w1 = negb (showStatisticOverlay w)
                 /\ showMetadataOverlay w1 = showMetadataOverlay w)
  /\ handleChars [code "m"; code "m"] w = Ok (w, [])
  /\ handleChars [code "s"; code "s"] w = Ok (w, []).
Proof.
  split; [by eexists | split; [by eexists |]].
  destruct w as [p c ks cs u m s z l ms rn].
  split; [by destruct m | by destruct s].
Qed.

(** ** The mouse *)

Section MouseFacts.
Import Mouse.

Lemma to_int_spec (z : Z) : exists k, to_int z = z + k * 2 ^ 32.
Proof.
  exists (- ((z + 2 ^ 31) / 2 ^ 32)). unfold to_int.
  pose proof (Z.div_mod (z + 2 ^ 31) (2 ^ 32)) as D.
  change (2 ^ 32) with 4294967296 in *. change (2 ^ 31) with 2147483648 in *. lia.
Qed.

Lemma to_int_shift (z k : Z) : to_int (z + k * 2 ^ 32) = to_int z.
Proof.
  unfold to_int. replace (z + k * 2 ^ 32 + 2 ^ 31) with (z + 2 ^ 31 + k * 2 ^ 32) by lia.
  by rewrite Z_mod_plus_full.
Qed.

Lemma to_int_is_int (z : Z) : is_int (to_int z).
Proof.
  unfold is_int, to_int. pose proof (Z.mod_pos_bound (z + 2 ^ 31) (2 ^ 32)) as B.
  change (2 ^ 32) with 4294967296 in *. change (2 ^ 31) with 2147483648 in *. lia.
Qed.

Lemma to_int_id (z : Z) : is_int z -> to_int z = z.
Proof.
  unfold is_int, to_int. intros R. rewrite Z.mod_small; lia.
Qed.

Lemma onMouseMove_down (mx my : Z) (p : Mouse.t) :
  m_MouseLeftDown p = true ->
  m_MouseLeftDown (onMouseMove mx my p) = true
  /\ m_MousePos (onMouseMove mx my p) = {| x := mx; y := my |}
  /\ x (pan (onMouseMove mx my p)) = to_int (x (pan p) + to_int (mx - x (m_MousePos p)))
  /\ y (pan (onMouseMove mx my p)) = to_int (y (pan p) - to_int (my - y (m_MousePos p))).
Proof. intros D. unfold onMouseMove. cbn. by rewrite D. Qed.

(** While the button is held, the pan follows the pointer up to multiples of
    2^32 and stays an [int]. *)
Lemma moves_down (positions : list (Z * Z)) :
  forall p : Mouse.t,
    m_MouseLeftDown p = true ->
    is_int (x (pan p)) -> is_int (y (pan p)) ->
    let q := moves positions p in
    m_MouseLeftDown q = true
    /\ is_int (x (pan q)) /\ is_int (y (pan q))
    /\ (exists k, x (pan q) = x (pan p) + (x (m_MousePos q) - x (m_MousePos p)) + k * 2 ^ 32)
    /\ (exists k, y (pan q) = y (pan p) - (y (m_MousePos q) - y (m_MousePos p)) + k * 2 ^ 32).
Proof.
  induction positions as [| [mx my] rest IH]; intros p D X Y.
  - cbn. split; [done | split; [done | split; [done | split; exists 0; lia]]].
  - change (moves ((mx, my) :: rest) p) with (moves rest (onMouseMove mx my p)).
    pose proof (onMouseMove_down mx my p D) as (S1 & S2 & S3 & S4).
    destruct (IH (onMouseMove mx my p)) as (D' & X' & Y' & (kx & EX) & (ky & EY));
      [done | rewrite S3; apply to_int_is_int | rewrite S4; apply to_int_is_int |].
    rewrite S2, S3 in EX. rewrite S2, S4 in EY. cbn [x y] in EX, EY.
    split; [done | split; [done | split; [done | split]]].
    + destruct (to_int_spec (mx - x (m_MousePos p))) as (k1 & E1).
      destruct (to_int_spec (x (pan p) + to_int (mx - x (m_MousePos p)))) as (k2 & E2).
      exists (kx + k1 + k2). rewrite EX, E2, E1. lia.
    + destruct (to_int_spec (my - y (m_MousePos p))) as (k1 & E1).
      destruct (to_int_spec (y (pan p) - to_int (my - y (m_MousePos p)))) as (k2 & E2).
      exists (ky - k1 + k2). rewrite EY, E2, E1. lia.
Qed.

Lemma last_default {A} (l : list A) (a d d' : A) :
  List.last (a :: l) d = List.last (a :: l) d'.
Proof.
  revert a. induction l as [| b l IH]; intros a; [done |].
  change (List.last (b :: l) d = List.last (b :: l) d'). apply IH.
Qed.

Lemma onMouseMove_keeps (mx my : Z) (p : Mouse.t) :
  m_MousePos (onMouseMove mx my p) = {| x := mx; y := my |}
  /\ m_MouseLeftDown (onMouseMove mx my p) = m_MouseLeftDown p
  /\ m_WindowDim (onMouseMove mx my p) = m_WindowDim p
  /\ (m_MouseLeftDown p = false -> pan (onMouseMove mx my p) = pan p).
Proof. unfold onMouseMove. cbn. by destruct (m_MouseLeftDown p). Qed.

Lemma moves_position (positions : list (Z * Z)) :
  forall p : Mouse.t,
    m_MousePos (moves positions p)
    = List.last (map (fun m => {| x := fst m; y := snd m |}) positions) (m_MousePos p)
    /\ m_MouseLeftDown (moves positions p) = m_MouseLeftDown p
    /\ m_WindowDim (moves positions p) = m_WindowDim p
    /\ (m_MouseLeftDown p = false -> pan (moves positions p) = pan p).
Proof.
  induction positions as [| [mx my] rest IH]; intros p; [done |].
  change (moves ((mx, my) :: rest) p) with (moves rest (onMouseMove mx my p)).
  destruct (IH (onMouseMove mx my p)) as (-> & -> & -> & P).
  destruct (onMouseMove_keeps mx my p) as (-> & -> & -> & P').
  split; [| split; [done | split; [done |]]].
  - destruct rest as [| m rest]; [by cbn |].
    exact (last_default (map (fun m => {| x := fst m; y := snd m |}) rest)
             {| x := fst m; y := snd m |} _ (m_MousePos p)).
  - intros U. rewrite P; [by apply P' |].
    by rewrite (proj1 (proj2 (onMouseMove_keeps mx my p))).
Qed.
End MouseFacts.

(** X16.  While the left button is held, the pan follows the pointer: after
    any run of mouse moves the pan has moved by the displacement of the
    pointer from where it stood before the first move to where it stands
    after the last, added in x and subtracted in y, as a 32-bit [int].  The
    path between does not matter, and where the sum fits an [int] it is
    exact. *)
Theorem drag_pans_by_displacement (positions : list (Z * Z)) (p : Mouse.t) :
  Mouse.m_MouseLeftDown p = true ->
  is_int (Mouse.x (Mouse.pan p)) ->
  is_int (Mouse.y (Mouse.pan p)) ->
  let q := Mouse.moves positions p in
  let dx := Mouse.x (Mouse.m_MousePos q) - Mouse.x (Mouse.m_MousePos p) in
  let dy := Mouse.y (Mouse.m_MousePos q) - Mouse.y (Mouse.m_MousePos p) in
  Mouse.x (Mouse.pan q) = to_int (Mouse.x (Mouse.pan p) + dx)
  /\ Mouse.y (Mouse.pan q) = to_int (Mouse.y (Mouse.pan p) - dy)
  /\ (is_int (Mouse.x (Mouse.pan p) + dx) -> Mouse.x (Mouse.pan q) = Mouse.x (Mouse.pan p) + dx)
  /\ (is_int (Mouse.y (Mouse.pan p) - dy) -> Mouse.y (Mouse.pan q) = Mouse.y (Mouse.pan p) - dy)
  /\ Mouse.m_MousePos q
     = List.last (map (fun m => {| Mouse.x := fst m; Mouse.y := snd m |}) positions)
         (Mouse.m_MousePos p).
Proof.
  intros D X Y q dx dy.
  destruct (moves_down positions p D X Y) as (_ & X' & Y' & (kx & EX) & (ky & EY)).
  fold q in X', Y', EX, EY. fold dx in EX. fold dy in EY.
  assert (PX : Mouse.x (Mouse.pan q) = to_int (Mouse.x (Mouse.pan p) + dx)).
  { rewrite <- (to_int_id _ X'), EX. apply to_int_shift. }
  assert (PY : Mouse.y (Mouse.pan q) = to_int (Mouse.y (Mouse.pan p) - dy)).
  { rewrite <- (to_int_id _ Y'), EY. apply to_int_shift. }
  split; [exact PX | split; [exact PY | split; [| split]]].
  - intros R. by rewrite PX, to_int_id.
  - intros R. by rewrite PY, to_int_id.
  - apply moves_position.
Qed.

Lemma drag_pans_by_displacement_witness :
  let q := Mouse.moves [(15, 18); (400, 7); (13, 26)] (sample_Pointer true) in
  Mouse.x (Mouse.pan q) = 3 /\ Mouse.y (Mouse.pan q) = -6.
Proof.
  intros q.
  destruct (drag_pans_by_displacement [(15, 18); (400, 7); (13, 26)] (sample_Pointer true))
    as (_ & _ & X & Y & _); [reflexivity | by vm_compute | by vm_compute |].
  split.
  - apply X. by vm_compute.
  - apply Y. by vm_compute.
Defined.

(** X17.  Only the left button pans.  With the button up, moving the mouse
    leaves the pan alone and only tracks the pointer; a click of any other
    button changes nothing; a click of the left button sets the button down
    exactly when its state is [GLFW_PRESS], and changes neither the pan nor
    the pointer. *)
Theorem only_left_button_pans `{GlfwDecl} `{Mouse.GlfwMouseDecl}
    (positions : list (Z * Z)) (buttonId buttonState : Z) (p : Mouse.t) :
  (Mouse.m_MouseLeftDown p = false ->
     Mouse.pan (Mouse.moves positions p) = Mouse.pan p
     /\ Mouse.m_MouseLeftDown (Mouse.moves positions p) = false
     /\ Mouse.m_MousePos (Mouse.moves positions p)
        = List.last (map (fun m => {| Mouse.x := fst m; Mouse.y := snd m |}) positions)
            (Mouse.m_MousePos p))
  /\ (buttonId <> Mouse.GLFW_MOUSE_BUTTON_LEFT ->
        Mouse.onMouseClick buttonId buttonState p = p)
  /\ (buttonId = Mouse.GLFW_MOUSE_BUTTON_LEFT ->
        (Mouse.m_MouseLeftDown (Mouse.onMouseClick buttonId buttonState p) = true
         <-> buttonState = GLFW_PRESS)
        /\ Mouse.pan (Mouse.onMouseClick buttonId buttonState p) = Mouse.pan p
        /\ Mouse.m_MousePos (Mouse.onMouseClick buttonId buttonState p) = Mouse.m_MousePos p).
Proof.
  split; [| split].
  - intros U. destruct (moves_position positions p) as (P & D & _ & N).
    split; [by apply N | split; [by rewrite D | exact P]].
  - intros N. unfold Mouse.onMouseClick.
    by destruct (Z.eqb_spec buttonId Mouse.GLFW_MOUSE_BUTTON_LEFT).
  - intros ->. unfold Mouse.onMouseClick. rewrite Z.eqb_refl. cbn.
    split; [apply Z.eqb_eq | done].
Qed.

Lemma only_left_button_pans_witness :
  Mouse.pan (Mouse.moves [(15, 18); (400, 7)] (sample_Pointer false))
  = Mouse.pan (sample_Pointer false)
  /\ @Mouse.onMouseClick sample_Glfw sample_Mouse 1 1 (sample_Pointer false)
     = sample_Pointer false.
Proof.
  destruct (@only_left_button_pans sample_Glfw sample_Mouse [(15, 18); (400, 7)] 1 1
              (sample_Pointer false)) as (M & C & _).
  split.
  - apply M. reflexivity.
  - apply C. discriminate.
Defined.

(** ** The rate of the cache dumps *)

Section DumpRate.
Context `{FitModeDecl} `{GlfwDecl} `{ClockDecl}.

Lemma loop_dump_rate (ticks : list Tick) :
  forall (w : Window) trace final,
    loop ticks w = (trace, final) ->
    Z.of_nat (length (List.filter dumps trace)) * (100 * ticks_per_millisecond)
    <= last_dump (milestone w) ticks trace - milestone w
    /\ (last_dump (milestone w) ticks trace = milestone w
        \/ exists tick, In tick ticks /\ last_dump (milestone w) ticks trace = now tick).
Proof.
  induction ticks as [| t rest IH]; intros w trace final L.
  - cbn in L. assert (trace = []) as -> by (destruct (running w); by injection L).
    cbn. split; [lia | by left].
  - cbn [loop] in L.
    destruct (running w); [| injection L as <- _; cbn; split; [lia | by left]].
    destruct (iteration t w) as [[w1 c1] |] eqn:E;
      [| injection L as <- _; cbn; split; [lia | by left]].
    destruct (loop rest w1) as [tr fin] eqn:L1. injection L as <- _.
    destruct (iteration_dumps _ _ _ _ E) as (D & M).
    destruct (IH w1 tr fin L1) as (B & W).
    cbn [last_dump List.filter]. rewrite <- M.
    split.
    + destruct (dumps c1) eqn:DC.
      * symmetry in D. unfold dumpDue in D. apply Z.ltb_lt in D.
        cbn [length]. rewrite M in B |- *. lia.
      * rewrite M in B |- *. lia.
    + destruct W as [W | (tick & I & W)].
      * rewrite W, M. destruct (dumps c1); [right; exists t; split; [by left | done] | by left].
      * right. exists tick. split; [by right | done].
Qed.
End DumpRate.

(** X18.  The dumps of the cache state are bounded by the clock: in a run
    whose clock readings do not pass [deadline], the iterations that call
    [dumpState] number at most the milliseconds from the entry of [run] to
    [deadline], divided by 100, whatever the number of iterations. *)
Theorem dump_rate_bounded `{FitModeDecl} `{GlfwDecl} `{ClockDecl}
    (start deadline : Z) (ticks : list Tick) (w : Window)
    (trace : list (list Call)) (final : result Window) :
  run start ticks w = (trace, final) ->
  start <= deadline ->
  Forall (fun tick => now tick <= deadline) ticks ->
  Z.of_nat (length (List.filter dumps trace)) * (100 * ticks_per_millisecond)
  <= deadline - start.
Proof.
  intros R S F. unfold run in R.
  destruct (loop_dump_rate _ _ _ _ R) as (B & W).
  cbn [milestone with_running with_milestone] in B, W.
  destruct W as [W | (tick & I & W)].
  - rewrite W in B. lia.
  - rewrite W in B. apply (proj1 (List.Forall_forall _ _) F) in I. lia.
Qed.

Lemma dump_rate_bounded_witness :
  let ticks := [sample_Tick 50000000; sample_Tick 150000000; sample_Tick 200000000;
                sample_Tick 260000000] in
  Z.of_nat (length (List.filter dumps
                      (fst (@run sample_FitMode sample_Glfw sample_Clock 0 ticks
                              (sample_Window 1)))))
  * 100000000 <= 260000000.
Proof.
  intros ticks.
  apply (@dump_rate_bounded sample_FitMode sample_Glfw sample_Clock 0 260000000 ticks
           (sample_Window 1) _
           (snd (@run sample_FitMode sample_Glfw sample_Clock 0 ticks (sample_Window 1)))).
  - apply surjective_pairing.
  - lia.
  - repeat constructor; by vm_compute.
Defined.
